(** * DetectorScout: grid addressing, markers and the scout simulation

    A shallow embedding of [src/main.py] (classes [GridCanvas] and
    [MainWindow]) and the properties of its specification.

    Conventions of the embedding.
    - Python [int] is [Z]; [divmod] and [//] on integers are [Z.div] and
      [Z.modulo] (both round towards minus infinity, as Python does).
    - Python [float] coordinates ([QPointF], [QRectF]) are rationals [Q]:
      arithmetic is exact, rounding of binary64 is not modelled.  The
      properties below are therefore stated through the tests the code
      makes and the expressions it assigns, never through an identity
      between two ways of computing a number (such as
      [(a + b) - b = a]), which rounding may break.  The positions,
      velocities and sizes of the concrete agents used below are dyadic,
      and so are the coordinates they are moved to.
    - Python [str] is [string] over 8-bit characters with the ASCII case
      mapping of [str.upper].
    - An exception is a value [Raised e] of the [py] monad; a
      [try ... except Exception: pass] block is [try_pass].
    - [random.random()] is an oracle [nat -> Q]; the number of draws made so
      far is threaded through the code that draws.
    - [self.update()] (a repaint request) is counted in the field
      [updates]. *)

From Equations Require Import Equations.
From Stdlib Require Import ZArith QArith Qround Qabs Qminmax Lia Lqa.
From Stdlib Require Import Bool List Ascii String.
Import ListNotations.

Local Open Scope Z_scope.

(** ** Python outcomes *)

Inductive exn : Type :=
| ZeroDivisionError
| ValueError.

Inductive py (A : Type) : Type :=
| Returned (a : A)
| Raised (e : exn).
Arguments Returned {A} a.
Arguments Raised {A} e.

Definition py_bind {A B : Type} (m : py A) (k : A -> py B) : py B :=
  match m with
  | Returned a => k a
  | Raised e => Raised e
  end.

Notation "x <- m ;; k" := (py_bind m (fun x => k))
  (at level 61, m at next level, right associativity).

(** [try: body  except Exception: pass] around a state update: when the body
    raises, the state is the one before the block (the bodies below change
    the state only in their last step). *)
Definition try_pass {S : Type} (before : S) (body : py S) : S :=
  match body with
  | Returned s => s
  | Raised _ => before
  end.

(** ** Characters and strings *)

Definition ord (c : ascii) : Z := Z.of_nat (nat_of_ascii c).
Definition chr (z : Z) : ascii := ascii_of_nat (Z.to_nat z).

Definition is_upper_letter (c : ascii) : bool :=
  (ord "A" <=? ord c) && (ord c <=? ord "Z").

Definition is_lower_letter (c : ascii) : bool :=
  (ord "a" <=? ord c) && (ord c <=? ord "z").

Definition upper_char (c : ascii) : ascii :=
  if is_lower_letter c then chr (ord c - 32) else c.

(** [str.upper] *)
Definition upper (s : string) : string :=
  string_of_list_ascii (map upper_char (list_ascii_of_string s)).

(** [str.isspace] on one character: TAB..CR, FS..US, space, NEL, NBSP. *)
Definition isspace (c : ascii) : bool :=
  let n := ord c in
  ((9 <=? n) && (n <=? 13)) || ((28 <=? n) && (n <=? 32))
  || (n =? 133) || (n =? 160).

Fixpoint lstrip (l : list ascii) : list ascii :=
  match l with
  | c :: l' => if isspace c then lstrip l' else l
  | [] => []
  end.

(** [str.strip] *)
Definition strip (s : string) : string :=
  string_of_list_ascii
    (rev (lstrip (rev (lstrip (list_ascii_of_string s))))).

(** ** Grid coordinate system *)

(** The [while n > 0] loop of [_index_to_letters]; [result] is the list the
    loop appends to. *)
Equations? index_to_letters_loop (n : Z) (result : list ascii) : list ascii
  by wf (Z.to_nat n) lt :=
  index_to_letters_loop n result with Z_gt_dec n 0 => {
    | left _ =>
        index_to_letters_loop ((n - 1) / 26)
          (result ++ [chr (ord "A" + (n - 1) mod 26)]);
    | right _ => result }.
Proof.
  assert ((n - 1) / 26 < n) by (apply Z.div_lt_upper_bound; lia).
  assert (0 <= (n - 1) / 26) by (apply Z.div_pos; lia).
  lia.
Qed.

Definition _index_to_letters (n : Z) : string :=
  string_of_list_ascii (rev (index_to_letters_loop n [])).

(** One iteration of the [for ch in s] loop of [_letters_to_index]. *)
Definition letters_step (val : Z) (ch : ascii) : Z :=
  if is_upper_letter ch then val * 26 + (ord ch - ord "A" + 1) else val.

Definition _letters_to_index (s : string) : py Z :=
  let s := strip (upper s) in
  Returned (fold_left letters_step (list_ascii_of_string s) 0).

(** The letters of [n], most significant first: the reversed loop result
    before [''.join]. *)
Definition letters (n : Z) : list ascii := rev (index_to_letters_loop n []).

(** The value of a letter string in bijective base 26 (A = 1 ... Z = 26). *)
Definition label_value (l : list ascii) : Z :=
  fold_left (fun val ch => val * 26 + (ord ch - ord "A" + 1)) l 0.

(** A label the specification calls invalid: empty, or with a character
    outside A-Z once upper-cased. *)
Definition invalid_label (s : string) : bool :=
  match list_ascii_of_string (upper s) with
  | [] => true
  | l => negb (forallb is_upper_letter l)
  end.

(** ** Plane geometry: [QPointF] and [QRectF] *)

(** [a < b] on coordinates, as a test. *)
Definition Qltb (a b : Q) : bool := negb (Qle_bool b a).

Record QPointF : Type := mkPoint { ptx : Q; pty : Q }.

Record QRectF : Type := mkRect { rx : Q; ry : Q; rw : Q; rh : Q }.

(** The extent of a rectangle on one axis, from its origin [p] and its
    (possibly negative) length [len]: [QRectF::intersects] swaps the ends of
    a rectangle of negative width or height before it compares. *)
Definition span_lo (p len : Q) : Q := if Qltb len 0 then (p + len)%Q else p.
Definition span_hi (p len : Q) : Q := if Qltb len 0 then p else (p + len)%Q.

(** [QRectF.intersects], the Qt method that [_bbox_intersects_rects]
    calls, after Qt's implementation: a null rectangle intersects nothing;
    otherwise the extents must overlap on X ([l1 >= r2 || l2 >= r1] fails),
    then on Y. *)
Definition intersects (a b : QRectF) : bool :=
  let l1 := span_lo (rx a) (rw a) in
  let r1 := span_hi (rx a) (rw a) in
  if Qeq_bool l1 r1 then false else
  let l2 := span_lo (rx b) (rw b) in
  let r2 := span_hi (rx b) (rw b) in
  if Qeq_bool l2 r2 then false else
  if Qle_bool r2 l1 || Qle_bool r1 l2 then false else
  let t1 := span_lo (ry a) (rh a) in
  let b1 := span_hi (ry a) (rh a) in
  if Qeq_bool t1 b1 then false else
  let t2 := span_lo (ry b) (rh b) in
  let b2 := span_hi (ry b) (rh b) in
  if Qeq_bool t2 b2 then false else
  if Qle_bool b2 t1 || Qle_bool b1 t2 then false else
  true.

(** [GridCanvas._bbox_intersects_rects]: the [for r in self.rectangles]
    loop with its early [return True]. *)
Fixpoint _bbox_intersects_rects (rectangles : list QRectF) (bbox : QRectF)
  : bool :=
  match rectangles with
  | r :: rest =>
      if intersects bbox r then true else _bbox_intersects_rects rest bbox
  | [] => false
  end.

(** The edges of a rectangle as [QRectF::intersects] reads them. *)
Definition left_edge (r : QRectF) : Q := span_lo (rx r) (rw r).
Definition right_edge (r : QRectF) : Q := span_hi (rx r) (rw r).
Definition top_edge (r : QRectF) : Q := span_lo (ry r) (rh r).
Definition bottom_edge (r : QRectF) : Q := span_hi (ry r) (rh r).

(** The specification's overlap test, in its words: two coordinate ranges
    overlap strictly when they share an interval of positive length. *)
Definition ranges_overlap (lo1 hi1 lo2 hi2 : Q) : Prop :=
  (Qmax lo1 lo2 < Qmin hi1 hi2)%Q.

(** Two rectangles intersect when their ranges overlap on both axes. *)
Definition rects_overlap (a b : QRectF) : Prop :=
  ranges_overlap (left_edge a) (right_edge a) (left_edge b) (right_edge b)
  /\ ranges_overlap (top_edge a) (bottom_edge a) (top_edge b) (bottom_edge b).

(** Two rectangles that share a boundary coordinate: one ends where the
    other begins. *)
Definition touching (a b : QRectF) : Prop :=
  (right_edge a == left_edge b)%Q \/ (right_edge b == left_edge a)%Q
  \/ (bottom_edge a == top_edge b)%Q \/ (bottom_edge b == top_edge a)%Q.

(** ** The canvas state *)

(** One entry of [self.quadcopters], and the value of [self.purple_drone]:
    the dict [{'pos', 'vel', 'size', 'battery'}]. *)
Record Quad : Type := mkQuad {
  pos : QPointF;
  vel : QPointF;
  size : Q;
  battery : Q
}.

(** A marker key [(row_letter, col_num)]. *)
Definition PinKey : Type := (string * Z)%type.

Definition key_eqb (a b : PinKey) : bool :=
  String.eqb (fst a) (fst b) && (snd a =? snd b).

(** [key in pins] *)
Definition key_in (key : PinKey) (pins : list PinKey) : bool :=
  existsb (key_eqb key) pins.

Definition cell_eqb (a b : Z * Z) : bool :=
  (fst a =? fst b) && (snd a =? snd b).

(** [visited.add(cell)] on the set [self.visited]. *)
Definition visited_add (cell : Z * Z) (visited : list (Z * Z))
  : list (Z * Z) :=
  if existsb (cell_eqb cell) visited then visited else cell :: visited.

Record GridCanvas : Type := mkCanvas {
  cell_size : Z;
  width : Z;                       (* self.width() *)
  height : Z;                      (* self.height() *)
  pins : list PinKey;
  rectangles : list QRectF;
  quadcopters : list Quad;
  anim_timer_active : bool;        (* self._anim_timer.isActive() *)
  visited : list (Z * Z);
  purple_drone : option Quad;
  purple_pins : list PinKey;
  updates : nat                    (* calls of self.update() so far *)
}.

Definition set_pins (st : GridCanvas) (v : list PinKey) : GridCanvas :=
  mkCanvas (cell_size st) (width st) (height st) v (rectangles st)
    (quadcopters st) (anim_timer_active st) (visited st) (purple_drone st)
    (purple_pins st) (updates st).

Definition set_rectangles (st : GridCanvas) (v : list QRectF) : GridCanvas :=
  mkCanvas (cell_size st) (width st) (height st) (pins st) v
    (quadcopters st) (anim_timer_active st) (visited st) (purple_drone st)
    (purple_pins st) (updates st).

Definition set_quadcopters (st : GridCanvas) (v : list Quad) : GridCanvas :=
  mkCanvas (cell_size st) (width st) (height st) (pins st) (rectangles st)
    v (anim_timer_active st) (visited st) (purple_drone st)
    (purple_pins st) (updates st).

Definition set_timer (st : GridCanvas) (v : bool) : GridCanvas :=
  mkCanvas (cell_size st) (width st) (height st) (pins st) (rectangles st)
    (quadcopters st) v (visited st) (purple_drone st)
    (purple_pins st) (updates st).

Definition set_visited (st : GridCanvas) (v : list (Z * Z)) : GridCanvas :=
  mkCanvas (cell_size st) (width st) (height st) (pins st) (rectangles st)
    (quadcopters st) (anim_timer_active st) v (purple_drone st)
    (purple_pins st) (updates st).

Definition set_purple_drone (st : GridCanvas) (v : option Quad)
  : GridCanvas :=
  mkCanvas (cell_size st) (width st) (height st) (pins st) (rectangles st)
    (quadcopters st) (anim_timer_active st) (visited st) v
    (purple_pins st) (updates st).

Definition set_purple_pins (st : GridCanvas) (v : list PinKey)
  : GridCanvas :=
  mkCanvas (cell_size st) (width st) (height st) (pins st) (rectangles st)
    (quadcopters st) (anim_timer_active st) (visited st) (purple_drone st)
    v (updates st).

(** [self.update()] *)
Definition update (st : GridCanvas) : GridCanvas :=
  mkCanvas (cell_size st) (width st) (height st) (pins st) (rectangles st)
    (quadcopters st) (anim_timer_active st) (visited st) (purple_drone st)
    (purple_pins st) (S (updates st)).

(** ** Marker store *)

(** [GridCanvas.add_pin]; [col_num] is already an [int], so [int(col_num)]
    is [col_num] and the [try] around the key never fires. *)
Definition add_pin (row_letter : string) (col_num : Z) (st : GridCanvas)
  : GridCanvas :=
  let key := (upper row_letter, col_num) in
  if key_in key (pins st) then st
  else update (set_pins st (pins st ++ [key])).

(** [GridCanvas.clear_rectangles] *)
Definition clear_rectangles (st : GridCanvas) : GridCanvas :=
  match rectangles st with
  | [] => st
  | _ :: _ => update (set_rectangles st [])
  end.

(** [int(x // cs)] for a float [x] and the integer cell size [cs]. *)
Definition floordiv (x : Q) (cs : Z) : py Z :=
  if cs =? 0 then Raised ZeroDivisionError
  else Returned (Qfloor (x / inject_Z cs)).

(** The grid cell [(row_idx, col_idx)] under a point. *)
Definition cell_of (cs : Z) (p : QPointF) : py (Z * Z) :=
  col_idx <- floordiv (ptx p) cs ;;
  row_idx <- floordiv (pty p) cs ;;
  Returned (row_idx, col_idx).

(** [GridCanvas.place_purple_pindrop]; the whole body is inside
    [try ... except Exception: pass].  Every drone dict has a ['pos'], so
    the [pos is None] return is the [None] case of [purple_drone]. *)
Definition place_purple_pindrop (st : GridCanvas) : GridCanvas :=
  try_pass st
    (match purple_drone st with
     | None => Returned st
     | Some pd =>
         col_idx <- floordiv (ptx (pos pd)) (cell_size st) ;;
         row_idx <- floordiv (pty (pos pd)) (cell_size st) ;;
         if (row_idx <? 1) || (col_idx <? 1) then Returned st
         else
           let row_letter := _index_to_letters row_idx in
           let key := (upper row_letter, col_idx) in
           if key_in key (purple_pins st) then Returned st
           else Returned
                  (update (set_purple_pins st (purple_pins st ++ [key])))
     end).

(** [MainWindow._on_serial_pin]: the slot connected to
    [SerialReceiver.got_pin]; [row] and [col] are the payload of the
    event. *)
Definition _on_serial_pin (row : string) (col : Z) (canvas : GridCanvas)
  : GridCanvas :=
  try_pass canvas (Returned (place_purple_pindrop canvas)).

(** The marker key of the cell under the purple drone, when there is a
    drone and its cell is in the content area (row and column at least 1). *)
Definition drone_key (st : GridCanvas) : option PinKey :=
  match purple_drone st with
  | None => None
  | Some pd =>
      match cell_of (cell_size st) (pos pd) with
      | Returned (row_idx, col_idx) =>
          if (row_idx <? 1) || (col_idx <? 1) then None
          else Some (upper (_index_to_letters row_idx), col_idx)
      | Raised _ => None
      end
  end.

(** How many markers of a list sit on the cell [key]. *)
Definition marker_count (key : PinKey) (l : list PinKey) : nat :=
  List.length (filter (key_eqb key) l).

(** A canvas as [GridCanvas.__init__] leaves it, at the minimum widget size
    400 x 300. *)
Definition fresh_canvas (cs : Z) : GridCanvas :=
  mkCanvas cs 400 300 [] [] [] false [] None [] 0.

(** A quadcopter dict. *)
Definition quad_at (x y vx vy sz : Q) : Quad :=
  mkQuad (mkPoint x y) (mkPoint vx vy) sz 90.

(** ** Simulation control *)

(** [GridCanvas.stop_quads] *)
Definition stop_quads (st : GridCanvas) : GridCanvas :=
  let st := if anim_timer_active st then set_timer st false else st in
  let st :=
    match quadcopters st with
    | [] => st
    | _ :: _ => update (set_quadcopters st [])
    end in
  let st := set_purple_drone st None in
  match purple_pins st with
  | [] => st
  | _ :: _ => set_purple_pins st []
  end.

(** ** Agent motion engine *)

Definition set_pos_x (q : Quad) (x : Q) : Quad :=
  mkQuad (mkPoint x (pty (pos q))) (vel q) (size q) (battery q).
Definition set_pos_y (q : Quad) (y : Q) : Quad :=
  mkQuad (mkPoint (ptx (pos q)) y) (vel q) (size q) (battery q).
Definition set_vel_x (q : Quad) (vx : Q) : Quad :=
  mkQuad (pos q) (mkPoint vx (pty (vel q))) (size q) (battery q).
Definition set_vel_y (q : Quad) (vy : Q) : Quad :=
  mkQuad (pos q) (mkPoint (ptx (vel q)) vy) (size q) (battery q).
Definition set_battery (q : Quad) (b : Q) : Quad :=
  mkQuad (pos q) (vel q) (size q) b.

(** [QRectF(x - half, y - half, size, size)] with [half = size / 2.0] *)
Definition bbox_at (x y sz : Q) : QRectF :=
  mkRect (x - sz / 2) (y - sz / 2) sz sz.

Definition bbox_of (q : Quad) : QRectF :=
  bbox_at (ptx (pos q)) (pty (pos q)) (size q).

(** The playable area computed at the top of [_tick]. *)
Record Area : Type := mkArea {
  area_x0 : Z; area_y0 : Z; area_x1 : Z; area_y1 : Z
}.

Definition play_area (st : GridCanvas) : Area :=
  let w := Z.max 1 (width st) in
  let h := Z.max 1 (height st) in
  let cs := cell_size st in
  mkArea cs cs (Z.max (cs + 10) (w - cs)) (Z.max (cs + 10) (h - cs)).

(** [random.uniform(a, b)] from the unit draw [u]. *)
Definition uniform (a b u : Q) : Q := (a + (b - a) * u)%Q.

(** "check X movement" *)
Definition move_x (rects : list QRectF) (q : Quad) : Quad :=
  let next_x := (ptx (pos q) + ptx (vel q))%Q in
  if _bbox_intersects_rects rects (bbox_at next_x (pty (pos q)) (size q))
  then set_vel_x q (- ptx (vel q))
  else set_pos_x q next_x.

(** "check Y movement" *)
Definition move_y (rects : list QRectF) (q : Quad) : Quad :=
  let next_y := (pty (pos q) + pty (vel q))%Q in
  if _bbox_intersects_rects rects (bbox_at (ptx (pos q)) next_y (size q))
  then set_vel_y q (- pty (vel q))
  else set_pos_y q next_y.

(** The [for _ in range(6)] nudge loop; the flag is [nudged]. *)
Fixpoint nudge (rects : list QRectF) (n : nat) (q : Quad) : Quad * bool :=
  match n with
  | O => (q, false)
  | S n' =>
      let q := set_pos_x q (ptx (pos q) + ptx (vel q)) in
      let q := set_pos_y q (pty (pos q) + pty (vel q)) in
      if _bbox_intersects_rects rects (bbox_of q)
      then nudge rects n' q
      else (q, true)
  end.

(** "if still overlapping after movement": nudge, else randomize the
    velocity. *)
Definition recover (rects : list QRectF) (rnd : nat -> Q) (k : nat)
  (q : Quad) : Quad * nat :=
  if _bbox_intersects_rects rects (bbox_of q) then
    let '(q, nudged) := nudge rects 6 q in
    if nudged then (q, k)
    else
      let q := set_vel_x q (uniform (-2.2) 2.2 (rnd k) * 1.3) in
      let q := set_vel_y q (uniform (-2.2) 2.2 (rnd (S k)) * 1.3) in
      (q, S (S k))
  else (q, k).

(** The reflected velocity of an ordinary quadcopter, with its floor of
    0.15 on the magnitude. *)
Definition rebound (v u : Q) : Q :=
  let new_v := (- v + uniform (-0.6) 0.6 u)%Q in
  if Qltb (Qabs new_v) 0.15
  then (0.15 * (if Qle_bool 0 new_v then 1 else -1))%Q
  else new_v.

(** The reflected velocity of the purple drone. *)
Definition rebound_purple (v u : Q) : Q := (- v + uniform (-0.6) 0.6 u)%Q.

Section Bounds.
Variable bounce : Q -> Q -> Q.
Variable a : Area.
Variable rnd : nat -> Q.

(** The four "maintain bounds" tests, each drawing one number when it
    fires. *)
Definition clamp_left (qk : Quad * nat) : Quad * nat :=
  let '(q, k) := qk in
  let half := (size q / 2)%Q in
  if Qltb (ptx (pos q) - half) (inject_Z (area_x0 a))
  then (set_vel_x (set_pos_x q (inject_Z (area_x0 a) + half))
          (bounce (ptx (vel q)) (rnd k)), S k)
  else (q, k).

Definition clamp_right (qk : Quad * nat) : Quad * nat :=
  let '(q, k) := qk in
  let half := (size q / 2)%Q in
  if Qltb (inject_Z (area_x1 a)) (ptx (pos q) + half)
  then (set_vel_x (set_pos_x q (inject_Z (area_x1 a) - half))
          (bounce (ptx (vel q)) (rnd k)), S k)
  else (q, k).

Definition clamp_top (qk : Quad * nat) : Quad * nat :=
  let '(q, k) := qk in
  let half := (size q / 2)%Q in
  if Qltb (pty (pos q) - half) (inject_Z (area_y0 a))
  then (set_vel_y (set_pos_y q (inject_Z (area_y0 a) + half))
          (bounce (pty (vel q)) (rnd k)), S k)
  else (q, k).

Definition clamp_bottom (qk : Quad * nat) : Quad * nat :=
  let '(q, k) := qk in
  let half := (size q / 2)%Q in
  if Qltb (inject_Z (area_y1 a)) (pty (pos q) + half)
  then (set_vel_y (set_pos_y q (inject_Z (area_y1 a) - half))
          (bounce (pty (vel q)) (rnd k)), S k)
  else (q, k).
End Bounds.

(** [max(0.0, battery - amount)] *)
Definition drain (amount : Q) (qk : Quad * nat) : Quad * nat :=
  let '(q, k) := qk in
  (set_battery q (Qmax 0 (battery q - amount)), k).

(** The body of [for q in self.quadcopters] in [_tick]; the battery drain
    sits between the third and the fourth bounds test, as in the source. *)
Definition tick_quad (a : Area) (rects : list QRectF) (rnd : nat -> Q)
  (k : nat) (q : Quad) : Quad * nat :=
  let q := move_x rects q in
  let q := move_y rects q in
  let qk := recover rects rnd k q in
  let qk := clamp_left rebound a rnd qk in
  let qk := clamp_right rebound a rnd qk in
  let qk := clamp_top rebound a rnd qk in
  let qk := drain 0.02 qk in
  clamp_bottom rebound a rnd qk.

(** The purple drone's part of [_tick], up to the battery drain. *)
Definition tick_purple (a : Area) (rects : list QRectF) (rnd : nat -> Q)
  (k : nat) (pd : Quad) : Quad * nat :=
  let pd := move_x rects pd in
  let pd := move_y rects pd in
  let qk := clamp_left rebound_purple a rnd (pd, k) in
  let qk := clamp_right rebound_purple a rnd qk in
  let qk := clamp_top rebound_purple a rnd qk in
  let qk := clamp_bottom rebound_purple a rnd qk in
  drain 0.03 qk.

Fixpoint tick_quads (a : Area) (rects : list QRectF) (rnd : nat -> Q)
  (k : nat) (qs : list Quad) : list Quad * nat :=
  match qs with
  | [] => ([], k)
  | q :: rest =>
      let '(q', k) := tick_quad a rects rnd k q in
      let '(rest', k) := tick_quads a rects rnd k rest in
      (q' :: rest', k)
  end.

(** "only consider content area (skip header row/col at index 0)" *)
Definition in_content (cs w h : Z) (cell : Z * Z) : bool :=
  let total_cols := Z.max 1 (w / cs) in
  let total_rows := Z.max 1 (h / cs) in
  let '(row_idx, col_idx) := cell in
  (1 <=? row_idx) && (1 <=? col_idx)
  && (col_idx <? total_cols) && (row_idx <? total_rows).

Definition mark_visited (cs w h : Z) (p : QPointF) (seen : py (list (Z * Z)))
  : py (list (Z * Z)) :=
  seen <- seen ;;
  cell <- cell_of cs p ;;
  Returned (if in_content cs w h cell then visited_add cell seen else seen).

(** [GridCanvas._tick], one timer tick; [k] counts the random draws. *)
Definition _tick (rnd : nat -> Q) (k : nat) (st : GridCanvas)
  : GridCanvas * nat :=
  match quadcopters st with
  | [] => (st, k)
  | _ :: _ =>
      let w := Z.max 1 (width st) in
      let h := Z.max 1 (height st) in
      let cs := cell_size st in
      let a := play_area st in
      let '(qs, k) := tick_quads a (rectangles st) rnd k (quadcopters st) in
      let st := update (set_quadcopters st qs) in
      let st :=
        set_visited st
          (try_pass (visited st)
             (fold_left (fun seen q => mark_visited cs w h (pos q) seen)
                qs (Returned (visited st)))) in
      match purple_drone st with
      | None => (st, k)
      | Some pd =>
          let '(pd, k) := tick_purple a (rectangles st) rnd k pd in
          let st := set_purple_drone st (Some pd) in
          let st :=
            set_visited st
              (try_pass (visited st)
                 (mark_visited cs w h (pos pd) (Returned (visited st)))) in
          (st, k)
      end
  end.

(** The simulation is stopped: the state of a canvas before the first
    [start_quads] and after [stop_quads]. *)
Definition stopped (st : GridCanvas) : Prop :=
  quadcopters st = [] /\ purple_drone st = None /\ purple_pins st = []
  /\ anim_timer_active st = false.

(** ** Vocabulary of the motion properties *)

(** The proposed X move of [q] is blocked by a zone. *)
Definition blocked_x (rects : list QRectF) (q : Quad) : bool :=
  _bbox_intersects_rects rects
    (bbox_at (ptx (pos q) + ptx (vel q)) (pty (pos q)) (size q)).

(** The proposed Y move of [q] is blocked by a zone. *)
Definition blocked_y (rects : list QRectF) (q : Quad) : bool :=
  _bbox_intersects_rects rects
    (bbox_at (ptx (pos q)) (pty (pos q) + pty (vel q)) (size q)).

(** One of the four "maintain bounds" tests holds of [q]. *)
Definition clamp_fires (a : Area) (q : Quad) : bool :=
  let half := (size q / 2)%Q in
  Qltb (ptx (pos q) - half) (inject_Z (area_x0 a))
  || Qltb (inject_Z (area_x1 a)) (ptx (pos q) + half)
  || Qltb (pty (pos q) - half) (inject_Z (area_y0 a))
  || Qltb (inject_Z (area_y1 a)) (pty (pos q) + half).

(** The agent as the bounds tests of one tick find it. *)
Definition before_bounds_quad (rects : list QRectF) (rnd : nat -> Q)
  (k : nat) (q : Quad) : Quad :=
  fst (recover rects rnd k (move_y rects (move_x rects q))).

Definition before_bounds_purple (rects : list QRectF) (pd : Quad) : Quad :=
  move_y rects (move_x rects pd).

(** The per-axis rule between the agent [q] before a tick and the agent
    [q'] after it: a blocked axis keeps its coordinate and negates its
    velocity component, a free axis commits the move.  The Y proposal is
    made from the position the X step left. *)
Definition axis_rule (rects : list QRectF) (q q' : Quad) : Prop :=
  (if blocked_x rects q
   then ptx (pos q') = ptx (pos q) /\ ptx (vel q') = (- ptx (vel q))%Q
   else ptx (pos q') = (ptx (pos q) + ptx (vel q))%Q
        /\ ptx (vel q') = ptx (vel q))
  /\ (if blocked_y rects (move_x rects q)
      then pty (pos q') = pty (pos q) /\ pty (vel q') = (- pty (vel q))%Q
      else pty (pos q') = (pty (pos q) + pty (vel q))%Q
           /\ pty (vel q') = pty (vel q)).

(** No corner of the bounding box of [q] is outside the playable area. *)
Definition inside (a : Area) (q : Quad) : Prop :=
  (inject_Z (area_x0 a) <= ptx (pos q) - size q / 2
   /\ ptx (pos q) + size q / 2 <= inject_Z (area_x1 a)
   /\ inject_Z (area_y0 a) <= pty (pos q) - size q / 2
   /\ pty (pos q) + size q / 2 <= inject_Z (area_y1 a))%Q.

(** Where the two bounds tests of one axis leave a centre coordinate [p],
    between the edges [lo] and [hi], for an agent of half size [half]:
    both tests are false of it (no corner of the box is outside on this
    axis); or it was put at [lo + half] and the test at [hi] is false; or
    it was put at [hi - half].  Each sum and difference is the expression
    the code evaluates. *)
Definition axis_settled (lo hi : Z) (p half : Q) : Prop :=
  (inject_Z lo <= p - half /\ p + half <= inject_Z hi)%Q
  \/ (p = (inject_Z lo + half)%Q /\ (p + half <= inject_Z hi)%Q)
  \/ p = (inject_Z hi - half)%Q.

Definition settled (a : Area) (q : Quad) : Prop :=
  axis_settled (area_x0 a) (area_x1 a) (ptx (pos q)) (size q / 2)%Q
  /\ axis_settled (area_y0 a) (area_y1 a) (pty (pos q)) (size q / 2)%Q.

(** The agent has a size that is not negative, and half of it is not more
    than the width and the height of the playable area. *)
Definition roomy (a : Area) (q : Quad) : Prop :=
  (0 <= size q
   /\ size q / 2 <= inject_Z (area_x1 a) - inject_Z (area_x0 a)
   /\ size q / 2 <= inject_Z (area_y1 a) - inject_Z (area_y0 a))%Q.

(** The centre of the agent is in the playable area. *)
Definition centre_inside (a : Area) (q : Quad) : Prop :=
  (inject_Z (area_x0 a) <= ptx (pos q) <= inject_Z (area_x1 a)
   /\ inject_Z (area_y0 a) <= pty (pos q) <= inject_Z (area_y1 a))%Q.

(** ** Starting and toggling the simulation *)

(** The bounds of [random.uniform(area_x0 + 10, max(area_x0 + 11, area_x1 - 10))]
    on one axis, from the two ends [c0] and [c1] of the playable area. *)
Definition spawn_lo (c0 : Z) : Q := inject_Z (c0 + 10).
Definition spawn_hi (c0 c1 : Z) : Q := inject_Z (Z.max (c0 + 11) (c1 - 10)).

(** [random.uniform(-2.2, 2.2) * 1.3] *)
Definition random_velocity (u : Q) : Q := (uniform (-2.2) 2.2 u * 1.3)%Q.

(** The [while not placed and attempts < N] loop of [start_quads]: two draws
    for the position of each attempt, three more (velocity, battery) for the
    attempt that is kept.  [bat_lo] is 60 for a quadcopter, 80 for the purple
    drone. *)
Fixpoint try_place (attempts : nat) (bat_lo : Q) (a : Area)
  (rects : list QRectF) (rnd : nat -> Q) (k : nat) (sz : Q)
  : option Quad * nat :=
  match attempts with
  | O => (None, k)
  | S n =>
      let x :=
        uniform (spawn_lo (area_x0 a)) (spawn_hi (area_x0 a) (area_x1 a))
          (rnd k) in
      let y :=
        uniform (spawn_lo (area_y0 a)) (spawn_hi (area_y0 a) (area_y1 a))
          (rnd (S k)) in
      if _bbox_intersects_rects rects (bbox_at x y sz)
      then try_place n bat_lo a rects rnd (S (S k)) sz
      else (Some (mkQuad (mkPoint x y)
                    (mkPoint (random_velocity (rnd (2 + k)%nat))
                       (random_velocity (rnd (3 + k)%nat)))
                    sz (uniform bat_lo 100 (rnd (4 + k)%nat))),
            (5 + k)%nat)
  end.

(** One round of [for _ in range(max(0, int(count)))]: 40 attempts, then the
    fallback, which draws a fresh position and keeps it unchecked. *)
Definition spawn_quad (a : Area) (rects : list QRectF) (rnd : nat -> Q)
  (k : nat) (cs : Z) : Quad * nat :=
  let sz := (inject_Z cs * 0.9)%Q in
  match try_place 40 60 a rects rnd k sz with
  | (Some q, k) => (q, k)
  | (None, k) =>
      let x :=
        uniform (spawn_lo (area_x0 a)) (spawn_hi (area_x0 a) (area_x1 a))
          (rnd k) in
      let y :=
        uniform (spawn_lo (area_y0 a)) (spawn_hi (area_y0 a) (area_y1 a))
          (rnd (S k)) in
      (mkQuad (mkPoint x y)
         (mkPoint (random_velocity (rnd (2 + k)%nat))
            (random_velocity (rnd (3 + k)%nat)))
         sz (uniform 60 100 (rnd (4 + k)%nat)),
       (5 + k)%nat)
  end.

Fixpoint spawn_quads (n : nat) (a : Area) (rects : list QRectF)
  (rnd : nat -> Q) (k : nat) (cs : Z) : list Quad * nat :=
  match n with
  | O => ([], k)
  | S n' =>
      let '(q, k) := spawn_quad a rects rnd k cs in
      let '(rest, k) := spawn_quads n' a rects rnd k cs in
      (q :: rest, k)
  end.

(** The purple drone of [start_quads]: 60 attempts, then a fixed fallback
    that draws nothing. *)
Definition spawn_purple (a : Area) (rects : list QRectF) (rnd : nat -> Q)
  (k : nat) (cs : Z) : Quad * nat :=
  let p_size := (inject_Z cs * 0.9)%Q in
  match try_place 60 80 a rects rnd k p_size with
  | (Some pd, k) => (pd, k)
  | (None, k) =>
      (mkQuad (mkPoint (inject_Z (area_x0 a + 20)) (inject_Z (area_y0 a + 20)))
         (mkPoint 1.3 (-1.3)) p_size 90, k)
  end.

(** [GridCanvas.start_quads]; [count] is an [int], so [int(count)] is
    [count]. *)
Definition start_quads (rnd : nat -> Q) (k : nat) (count : Z)
  (st : GridCanvas) : GridCanvas * nat :=
  let st := stop_quads st in
  let a := play_area st in
  let '(qs, k) :=
    spawn_quads (Z.to_nat (Z.max 0 count)) a (rectangles st) rnd k
      (cell_size st) in
  let st := set_quadcopters st (quadcopters st ++ qs) in
  let '(pd, k) := spawn_purple a (rectangles st) rnd k (cell_size st) in
  let st := set_purple_drone st (Some pd) in
  match quadcopters st with
  | [] => (st, k)
  | _ :: _ => (update (set_timer st true), k)
  end.

(** The canvas part of [MainWindow._on_play_toggled]: checked starts three
    quadcopters, unchecked stops the simulation. *)
Definition _on_play_toggled (rnd : nat -> Q) (k : nat) (checked : bool)
  (canvas : GridCanvas) : GridCanvas * nat :=
  if checked then start_quads rnd k 3 canvas
  else (stop_quads canvas, k).

(** The canvas part of [MainWindow.closeEvent]. *)
Definition closeEvent (canvas : GridCanvas) : GridCanvas :=
  stop_quads canvas.

(** ** Drawing rectangles with the mouse *)

(** The attributes of [GridCanvas] that only the mouse handlers use. *)
Record DrawTool : Type := mkTool {
  drawing_mode : bool;
  _drag_start : option QPointF;
  _current_rect : option QRectF
}.

Inductive MouseButton : Type := LeftButton | OtherButton.

Definition is_left (b : MouseButton) : bool :=
  match b with LeftButton => true | OtherButton => false end.

(** Python's [min(a, b)]: [b] when [b < a], else [a]. *)
Definition pymin (x y : Q) : Q := if Qltb y x then y else x.

(** [GridCanvas.set_drawing_mode] (the cursor is not modelled). *)
Definition set_drawing_mode (enabled : bool) (t : DrawTool) : DrawTool :=
  mkTool enabled (_drag_start t) (_current_rect t).

(** [GridCanvas.mousePressEvent] *)
Definition mousePressEvent (button : MouseButton) (p : QPointF)
  (tc : DrawTool * GridCanvas) : DrawTool * GridCanvas :=
  let '(t, c) := tc in
  if drawing_mode t && is_left button
  then (mkTool (drawing_mode t) (Some p) (Some (mkRect (ptx p) (pty p) 0 0)),
        update c)
  else tc.

(** [GridCanvas.mouseMoveEvent] *)
Definition mouseMoveEvent (p : QPointF) (tc : DrawTool * GridCanvas)
  : DrawTool * GridCanvas :=
  let '(t, c) := tc in
  match drawing_mode t, _drag_start t with
  | true, Some start =>
      let x0 := ptx start in
      let y0 := pty start in
      let x1 := ptx p in
      let y1 := pty p in
      (mkTool (drawing_mode t) (_drag_start t)
         (Some (mkRect (pymin x0 x1) (pymin y0 y1)
                  (Qabs (x1 - x0)) (Qabs (y1 - y0)))),
       update c)
  | _, _ => tc
  end.

(** [GridCanvas.mouseReleaseEvent] *)
Definition mouseReleaseEvent (button : MouseButton)
  (tc : DrawTool * GridCanvas) : DrawTool * GridCanvas :=
  let '(t, c) := tc in
  match drawing_mode t && is_left button, _current_rect t with
  | true, Some r =>
      (mkTool (drawing_mode t) None None,
       update (set_rectangles c (rectangles c ++ [r])))
  | _, _ => tc
  end.

(** ** Painting geometry *)

(** [paintEvent], "Draw pins on top of grid" and "Draw purple pindrops":
    the top-left corner [(cell_x, cell_y)] of the cell a marker is drawn
    in. *)
Definition pin_cell (cs : Z) (key : PinKey) : py (Z * Z) :=
  r <- _letters_to_index (fst key) ;;
  Returned (snd key * cs, r * cs).

(** [paintEvent], "Draw grid lines": the loop
    [x = 0; while x <= bound: drawLine(...); x += cs], started at [x]; the
    result is the list of the positions where a line is drawn.  [fuel]
    bounds the number of times the loop test is evaluated, and [None] says
    that the loop is still running when it is used up. *)
Fixpoint grid_lines (fuel : nat) (cs bound x : Z) : option (list Z) :=
  match fuel with
  | O => None
  | S fuel' =>
      if x <=? bound
      then match grid_lines fuel' cs bound (x + cs) with
           | Some ls => Some (x :: ls)
           | None => None
           end
      else Some []
  end.

(** [paintEvent], from its beginning to "Draw row letters": the two grid
    loops, then [total_rows = max(1, h // cs)] and the labels of the left
    header column, for [j in range(1, total_rows)].  [None]: a grid loop is
    still running, and the labels are not reached. *)
Definition row_labels (fuel : nat) (cs w h : Z)
  : option (py (list string)) :=
  match grid_lines fuel cs w 0, grid_lines fuel cs h 0 with
  | Some _, Some _ =>
      Some
        (if cs =? 0 then Raised ZeroDivisionError
         else
           let total_rows := Z.max 1 (h / cs) in
           Returned
             (map (fun j => _index_to_letters (Z.of_nat j))
                (seq 1 (Z.to_nat total_rows - 1))))
  | _, _ => None
  end.

(** ** The serial line reader *)

Definition is_letter (c : ascii) : bool :=
  is_upper_letter c || is_lower_letter c.

Definition is_digit (c : ascii) : bool :=
  (ord "0" <=? ord c) && (ord c <=? ord "9").

(** [SerialReceiver._pattern], [^\s*([A-Za-z]+)\s*,?\s*(\d+)\s*$]: the lines
    it matches, with the text of its two groups. *)
Definition pattern_matches (line row digits : list ascii) : Prop :=
  exists ws1 ws2 comma ws3 ws4,
    line = ws1 ++ row ++ ws2 ++ comma ++ ws3 ++ digits ++ ws4
    /\ forallb isspace ws1 = true
    /\ row <> [] /\ forallb is_letter row = true
    /\ forallb isspace ws2 = true
    /\ (comma = [] \/ comma = [","%char])
    /\ forallb isspace ws3 = true
    /\ digits <> [] /\ forallb is_digit digits = true
    /\ forallb isspace ws4 = true.

(** The longest prefix of [l] whose characters satisfy [p], and the rest. *)
Fixpoint span (p : ascii -> bool) (l : list ascii)
  : list ascii * list ascii :=
  match l with
  | c :: l' =>
      if p c then let '(pre, rest) := span p l' in (c :: pre, rest)
      else ([], l)
  | [] => ([], [])
  end.

(** [self._pattern.match(line)]: the two groups, or [None]. *)
Definition match_line (line : list ascii)
  : option (list ascii * list ascii) :=
  let '(row, rest) := span is_letter (lstrip line) in
  match row with
  | [] => None
  | _ :: _ =>
      let rest := lstrip rest in
      let rest := match rest with
                  | c :: r => if Ascii.eqb c "," then r else rest
                  | [] => rest
                  end in
      let '(digits, rest) := span is_digit (lstrip rest) in
      match digits, lstrip rest with
      | _ :: _, [] => Some (row, digits)
      | _, _ => None
      end
  end.

(** The number that a string of decimal digits denotes. *)
Definition digits_value (ds : list ascii) : Z :=
  fold_left (fun v d => v * 10 + (ord d - ord "0")) ds 0.

(** The interpreter's default limit on the number of digits that [int]
    converts ([sys.get_int_max_str_digits()]). *)
Definition int_max_str_digits : Z := 4300.

(** [int(m.group(2))] on a string of decimal digits: [ValueError] beyond
    the limit (leading zeros count), else the value. *)
Definition int_of_digits (ds : list ascii) : py Z :=
  if int_max_str_digits <? Z.of_nat (List.length ds)
  then Raised ValueError
  else Returned (digits_value ds).

(** [got_pin = Signal(str, int)]: the column travels as a C [int], so it
    reaches the slot reduced to 32 bits, two's complement. *)
Definition c_int (z : Z) : Z := (z + 2 ^ 31) mod 2 ^ 32 - 2 ^ 31.

(** The body of the [while] loop of [SerialReceiver._run] on one decoded
    line: what [got_pin] delivers, if anything.  A [ValueError] of [int]
    is caught by the [except Exception: continue] of the loop. *)
Definition handle_line (text : string) : option (string * Z) :=
  let line := strip text in
  match list_ascii_of_string line with
  | [] => None
  | l =>
      match match_line l with
      | None => None
      | Some (row, digits) =>
          match int_of_digits digits with
          | Returned col => Some (upper (string_of_list_ascii row), c_int col)
          | Raised _ => None
          end
      end
  end.

(** One decoded line from the port to the canvas: [got_pin] is connected to
    [MainWindow._on_serial_pin]. *)
Definition serial_line (text : string) (canvas : GridCanvas) : GridCanvas :=
  match handle_line text with
  | Some (row, col) => _on_serial_pin row col canvas
  | None => canvas
  end.

(** ** Vocabulary of the further properties *)

(** No two markers of one category are on the same cell. *)
Definition markers_unique (st : GridCanvas) : Prop :=
  NoDup (pins st) /\ NoDup (purple_pins st).

(** Every draw of [random.random()] lies in the unit interval. *)
Definition unit_draws (rnd : nat -> Q) : Prop :=
  forall n, (0 <= rnd n <= 1)%Q.

(** The purple drone that [start_quads] falls back to. *)
Definition purple_fallback (a : Area) (cs : Z) : Quad :=
  mkQuad (mkPoint (inject_Z (area_x0 a + 20)) (inject_Z (area_y0 a + 20)))
    (mkPoint 1.3 (-1.3)) (inject_Z cs * 0.9)%Q 90.

(** What one tick does to the battery and the size of an agent: the size
    stays, the battery loses [amount] and stops at 0. *)
Definition drained (amount : Q) (q q' : Quad) : Prop :=
  size q' = size q
  /\ (0 <= battery q')%Q
  /\ ((0 <= battery q)%Q -> (battery q' <= battery q)%Q)
  /\ ((amount <= battery q)%Q -> (battery q' == battery q - amount)%Q).

(** The cells [_tick] marks for a list of quadcopters, given the cells
    already seen. *)
Definition mark_all (cs w h : Z) (qs : list Quad) (seen : list (Z * Z))
  : list (Z * Z) :=
  try_pass seen
    (fold_left (fun seen q => mark_visited cs w h (pos q) seen) qs
       (Returned seen)).

(** Where [start_quads] samples positions, velocities and batteries. *)
Definition in_spawn_range (a : Area) (q : Quad) : Prop :=
  (spawn_lo (area_x0 a) <= ptx (pos q) <= spawn_hi (area_x0 a) (area_x1 a)
   /\ spawn_lo (area_y0 a) <= pty (pos q)
      <= spawn_hi (area_y0 a) (area_y1 a))%Q.

(** A velocity of [start_quads]: each component is the product by 1.3 of
    a number between -2.2 and 2.2, as the code computes it. *)
Definition sampled_velocity (v : QPointF) : Prop :=
  exists wx wy : Q,
    v = mkPoint (wx * 1.3)%Q (wy * 1.3)%Q
    /\ (-2.2 <= wx <= 2.2)%Q /\ (-2.2 <= wy <= 2.2)%Q.

Definition fresh_quad (bat_lo : Q) (a : Area) (q : Quad) : Prop :=
  in_spawn_range a q
  /\ sampled_velocity (vel q)
  /\ (bat_lo <= battery q <= 100)%Q.

(** The bounding box that a placement attempt of [start_quads] tests when
    it begins at draw [k]: [QRectF(x - size / 2, y - size / 2, size, size)]
    for the two draws [x] and [y]. *)
Definition sample_box (a : Area) (rnd : nat -> Q) (k : nat) (sz : Q)
  : QRectF :=
  bbox_at
    (uniform (spawn_lo (area_x0 a)) (spawn_hi (area_x0 a) (area_x1 a))
       (rnd k))
    (uniform (spawn_lo (area_y0 a)) (spawn_hi (area_y0 a) (area_y1 a))
       (rnd (S k)))
    sz.

(** The first [n] attempts of a placement loop that begins at draw [k]
    each sampled a box that meets a rectangle; a failed attempt uses two
    draws. *)
Definition attempts_blocked (a : Area) (rects : list QRectF)
  (rnd : nat -> Q) (k : nat) (sz : Q) (n : nat) : Prop :=
  forall i : nat, (i < n)%nat ->
    _bbox_intersects_rects rects (sample_box a rnd (k + 2 * i) sz) = true.

(** The cells that marking the agents [qs] may add: content cells under
    one of them. *)
Definition under_agent (cs w h : Z) (qs : list Quad) (c : Z * Z) : Prop :=
  in_content cs w h c = true
  /\ exists q, In q qs /\ cell_of cs (pos q) = Returned c.

(** Size and battery are the same in [q] and [q']. *)
Definition same_body (q q' : Quad) : Prop :=
  size q' = size q /\ battery q' = battery q.

(** The agent [q] is across a vertical (resp. horizontal) edge of the
    playable area: one of the two X (resp. Y) bounds tests holds of it. *)
Definition hits_x (a : Area) (q : Quad) : bool :=
  Qltb (ptx (pos q) - size q / 2) (inject_Z (area_x0 a))
  || Qltb (inject_Z (area_x1 a)) (ptx (pos q) + size q / 2).

Definition hits_y (a : Area) (q : Quad) : bool :=
  Qltb (pty (pos q) - size q / 2) (inject_Z (area_y0 a))
  || Qltb (inject_Z (area_y1 a)) (pty (pos q) + size q / 2).

(** A run of [mouseMoveEvent]s, in order. *)
Definition mouse_moves (ps : list QPointF) (tc : DrawTool * GridCanvas)
  : DrawTool * GridCanvas :=
  fold_left (fun tc p => mouseMoveEvent p tc) ps tc.

(** The list [l] does not begin with a character that satisfies [p]. *)
Definition hd_fails (p : ascii -> bool) (l : list ascii) : Prop :=
  match l with
  | [] => True
  | c :: _ => p c = false
  end.

(** * Properties *)

(** ** Grid coordinate system *)

Section GridLabels.

Example index_to_letters_1 : _index_to_letters 1 = "A"%string.
Proof. reflexivity. Qed.
Example index_to_letters_26 : _index_to_letters 26 = "Z"%string.
Proof. reflexivity. Qed.
Example index_to_letters_27 : _index_to_letters 27 = "AA"%string.
Proof. reflexivity. Qed.
Example index_to_letters_703 : _index_to_letters 703 = "AAA"%string.
Proof. reflexivity. Qed.
Example letters_to_index_aa : _letters_to_index " aa " = Returned 27.
Proof. reflexivity. Qed.


Lemma loop_pos (n : Z) (result : list ascii) :
  0 < n ->
  index_to_letters_loop n result =
  index_to_letters_loop ((n - 1) / 26)
    (result ++ [chr (ord "A" + (n - 1) mod 26)]).
Proof.
  intros Hn. rewrite (index_to_letters_loop_equation_1 n result).
  destruct (Z_gt_dec n 0) as [Hgt | Hle]; [reflexivity | lia].
Qed.

Lemma loop_nonpos (n : Z) (result : list ascii) :
  n <= 0 -> index_to_letters_loop n result = result.
Proof.
  intros Hn. rewrite (index_to_letters_loop_equation_1 n result).
  destruct (Z_gt_dec n 0) as [Hgt | Hle]; [lia | reflexivity].
Qed.

(** The loop only ever appends to [result]. *)
Lemma loop_app (n : Z) (result : list ascii) :
  index_to_letters_loop n result = result ++ index_to_letters_loop n [].
Proof.
  revert result.
  induction n as [n IH] using (well_founded_induction (Z.lt_wf 0)).
  intros result.
  destruct (Z_gt_dec n 0) as [Hgt | Hle].
  - rewrite (loop_pos n result), (loop_pos n []) by lia.
    assert (Hq : 0 <= (n - 1) / 26 < n).
    { split; [apply Z.div_pos; lia | apply Z.div_lt_upper_bound; lia]. }
    rewrite (IH _ Hq (result ++ _)), (IH _ Hq ([] ++ _)).
    rewrite <- app_assoc. reflexivity.
  - rewrite !loop_nonpos by lia. rewrite app_nil_r. reflexivity.
Qed.

Lemma letters_pos (n : Z) :
  0 < n ->
  letters n =
  letters ((n - 1) / 26) ++ [chr (ord "A" + (n - 1) mod 26)].
Proof.
  intros Hn. unfold letters.
  rewrite loop_pos, loop_app by assumption.
  rewrite rev_app_distr. reflexivity.
Qed.

Lemma letters_nonpos (n : Z) : n <= 0 -> letters n = [].
Proof. intros Hn. unfold letters. rewrite loop_nonpos; auto. Qed.

Lemma ord_chr (z : Z) : 0 <= z < 256 -> ord (chr z) = z.
Proof.
  intros Hz. unfold ord, chr.
  rewrite nat_ascii_embedding by lia. lia.
Qed.

Lemma digit_is_upper (r : Z) :
  0 <= r < 26 -> is_upper_letter (chr (ord "A" + r)) = true.
Proof.
  intros Hr. unfold is_upper_letter.
  rewrite ord_chr by (change (ord "A") with 65; lia).
  change (ord "A") with 65. change (ord "Z") with 90.
  apply andb_true_iff. split; apply Z.leb_le; lia.
Qed.

Lemma letters_upper (n : Z) : Forall (fun c => is_upper_letter c = true) (letters n).
Proof.
  induction n as [n IH] using (well_founded_induction (Z.lt_wf 0)).
  destruct (Z_gt_dec n 0) as [Hgt | Hle].
  - rewrite letters_pos by lia. apply Forall_app. split.
    + apply IH. split; [apply Z.div_pos; lia |].
      apply Z.div_lt_upper_bound; lia.
    + constructor; [| constructor].
      apply digit_is_upper. apply Z.mod_pos_bound. lia.
  - rewrite letters_nonpos by lia. constructor.
Qed.

(** Turn boolean tests on character codes into linear facts. *)
Ltac code_facts :=
  repeat match goal with
    | H : _ && _ = true |- _ => apply andb_true_iff in H; destruct H
    | H : _ || _ = true |- _ => apply orb_true_iff in H; destruct H
    | H : (_ <=? _) = true |- _ => apply Z.leb_le in H
    | H : (_ =? _) = true |- _ => apply Z.eqb_eq in H
    end.

Lemma upper_not_lower (c : ascii) :
  is_upper_letter c = true -> is_lower_letter c = false.
Proof.
  unfold is_upper_letter, is_lower_letter.
  change (ord "A") with 65. change (ord "Z") with 90.
  change (ord "a") with 97. change (ord "z") with 122.
  intros H. code_facts.
  apply andb_false_iff. left. apply Z.leb_gt. lia.
Qed.

Lemma space_not_upper (c : ascii) :
  isspace c = true -> is_upper_letter c = false.
Proof.
  unfold is_upper_letter, isspace.
  change (ord "A") with 65. change (ord "Z") with 90.
  intros H. code_facts.
  all: apply andb_false_iff; first [ left; apply Z.leb_gt; lia
                                   | right; apply Z.leb_gt; lia ].
Qed.

Lemma upper_char_fixes_upper (l : list ascii) :
  Forall (fun c => is_upper_letter c = true) l -> map upper_char l = l.
Proof.
  induction 1 as [| c l Hc _ IH]; simpl; [reflexivity |].
  unfold upper_char at 1. rewrite (upper_not_lower c Hc), IH. reflexivity.
Qed.

Lemma filter_lstrip (l : list ascii) :
  filter is_upper_letter (lstrip l) = filter is_upper_letter l.
Proof.
  induction l as [| c l IH]; simpl; [reflexivity |].
  destruct (isspace c) eqn:Hsp; [| reflexivity].
  rewrite (space_not_upper c Hsp). exact IH.
Qed.

(** Stripping removes no letter. *)
Lemma filter_strip (l : list ascii) :
  filter is_upper_letter (rev (lstrip (rev (lstrip l)))) =
  filter is_upper_letter l.
Proof.
  rewrite filter_rev, filter_lstrip, filter_rev, rev_involutive.
  apply filter_lstrip.
Qed.

(** The loop of [_letters_to_index] sees only the letters A-Z. *)
Lemma fold_letters_filter (l : list ascii) (val : Z) :
  fold_left letters_step l val =
  fold_left (fun v ch => v * 26 + (ord ch - ord "A" + 1))
    (filter is_upper_letter l) val.
Proof.
  revert val. induction l as [| c l IH]; intros val; simpl; [reflexivity |].
  unfold letters_step at 2.
  destruct (is_upper_letter c); simpl; apply IH.
Qed.

Lemma filter_all_upper (l : list ascii) :
  Forall (fun c => is_upper_letter c = true) l ->
  filter is_upper_letter l = l.
Proof.
  induction 1 as [| c l Hc _ IH]; simpl; [reflexivity |].
  rewrite Hc, IH. reflexivity.
Qed.

Lemma label_value_snoc (l : list ascii) (c : ascii) :
  label_value (l ++ [c]) = label_value l * 26 + (ord c - ord "A" + 1).
Proof. unfold label_value. rewrite fold_left_app. reflexivity. Qed.

Lemma label_value_letters (n : Z) : 0 <= n -> label_value (letters n) = n.
Proof.
  induction n as [n IH] using (well_founded_induction (Z.lt_wf 0)).
  intros Hn. destruct (Z_gt_dec n 0) as [Hgt | Hle].
  - rewrite letters_pos, label_value_snoc by lia.
    assert (Hr : 0 <= (n - 1) mod 26 < 26) by (apply Z.mod_pos_bound; lia).
    assert (Hq : 0 <= (n - 1) / 26 < n).
    { split; [apply Z.div_pos; lia | apply Z.div_lt_upper_bound; lia]. }
    rewrite IH by lia.
    rewrite ord_chr by (change (ord "A") with 65; lia).
    pose proof (Z.div_mod (n - 1) 26 ltac:(lia)). lia.
  - rewrite letters_nonpos by lia. unfold label_value. simpl. lia.
Qed.

(** What [_letters_to_index] computes on any string. *)
Lemma letters_to_index_value (s : string) :
  _letters_to_index s =
  Returned
    (label_value (filter is_upper_letter (list_ascii_of_string (upper s)))).
Proof.
  unfold _letters_to_index, strip, label_value. f_equal.
  rewrite list_ascii_of_string_of_list_ascii.
  rewrite fold_letters_filter, filter_strip. reflexivity.
Qed.

Lemma index_to_letters_chars (n : Z) :
  list_ascii_of_string (_index_to_letters n) = letters n.
Proof. apply list_ascii_of_string_of_list_ascii. Qed.

(** C10: [_index_to_letters] is defined on every integer; it returns the
    empty string for every [n <= 0], and for every [n >= 1] a non-empty
    string whose characters are all in A-Z. *)
Theorem index_to_letters_total (n : Z) :
  (n <= 0 -> _index_to_letters n = EmptyString) /\
  (1 <= n ->
   _index_to_letters n <> EmptyString /\
   Forall (fun c => is_upper_letter c = true)
     (list_ascii_of_string (_index_to_letters n))).
Proof.
  split; intros Hn.
  - unfold _index_to_letters. fold (letters n).
    rewrite letters_nonpos by assumption. reflexivity.
  - split.
    + intros Hempty.
      apply (f_equal list_ascii_of_string) in Hempty.
      rewrite index_to_letters_chars, letters_pos in Hempty by lia.
      simpl in Hempty. destruct (letters ((n - 1) / 26)); discriminate.
    + rewrite index_to_letters_chars. apply letters_upper.
Qed.

Lemma index_to_letters_total_witness :
  _index_to_letters (-5) = EmptyString /\
  _index_to_letters 28 <> EmptyString /\
  Forall (fun c => is_upper_letter c = true)
    (list_ascii_of_string (_index_to_letters 28)).
Proof.
  split.
  - apply (proj1 (index_to_letters_total (-5))). lia.
  - apply (proj2 (index_to_letters_total 28)). lia.
Defined.

(** C2: for every positive integer [n], converting [n] to its letter label
    and the label back yields [n]. *)
Theorem label_roundtrip (n : Z) :
  1 <= n -> _letters_to_index (_index_to_letters n) = Returned n.
Proof.
  intros Hn. rewrite letters_to_index_value. f_equal.
  unfold upper. rewrite list_ascii_of_string_of_list_ascii.
  rewrite index_to_letters_chars.
  rewrite (upper_char_fixes_upper _ (letters_upper n)).
  rewrite (filter_all_upper _ (letters_upper n)).
  apply label_value_letters. lia.
Qed.

Lemma label_roundtrip_witness :
  1 <= 475254 /\
  _letters_to_index (_index_to_letters 475254) = Returned 475254.
Proof.
  split; [lia | apply (label_roundtrip 475254); lia].
Defined.

(** C3, as the specification states it, fails: the empty string and a
    label with a digit are both invalid, and [_letters_to_index] returns a
    value for each (0 for the empty string, the value of the letters for
    ["A1"]). *)
Lemma letters_to_index_invalid_returns :
  (invalid_label "" = true /\ _letters_to_index "" = Returned 0) /\
  (invalid_label "A1" = true /\ _letters_to_index "A1" = Returned 1) /\
  ~ (forall s : string,
        invalid_label s = true -> exists e, _letters_to_index s = Raised e).
Proof.
  split; [split; reflexivity |]. split; [split; reflexivity |].
  intros Hclaim. destruct (Hclaim "A1"%string eq_refl) as [e He].
  discriminate He.
Qed.

(** C3, amended: [_letters_to_index] never fails.  On every string it
    returns the bijective base-26 value of the letters A-Z that the
    upper-cased string contains, in order, skipping every other character
    (so 0 when there is no letter). *)
Theorem letters_to_index_skips_non_letters (s : string) :
  (forall e, _letters_to_index s <> Raised e) /\
  _letters_to_index s =
  Returned
    (label_value (filter is_upper_letter (list_ascii_of_string (upper s)))).
Proof.
  split; [| apply letters_to_index_value].
  intros e. rewrite letters_to_index_value. discriminate.
Qed.

End GridLabels.

(** ** Exclusion zones *)

Section Zones.
Local Open Scope Q_scope.

Lemma Qltb_true (a b : Q) : Qltb a b = true <-> a < b.
Proof.
  unfold Qltb. rewrite negb_true_iff. split.
  - intros H. apply Qnot_le_lt. intros Hle.
    apply Qle_bool_iff in Hle. congruence.
  - intros H. destruct (Qle_bool b a) eqn:E; [| reflexivity].
    apply Qle_bool_iff in E. lra.
Qed.

Lemma Qltb_false (a b : Q) : Qltb a b = false <-> b <= a.
Proof.
  unfold Qltb. rewrite negb_false_iff. apply Qle_bool_iff.
Qed.

Lemma Qle_bool_false (a b : Q) : Qle_bool a b = false <-> b < a.
Proof.
  rewrite <- Qltb_true. unfold Qltb. rewrite negb_true_iff. reflexivity.
Qed.

Lemma span_ordered (p len : Q) : span_lo p len <= span_hi p len.
Proof.
  unfold span_lo, span_hi. destruct (Qltb len 0) eqn:E.
  - apply Qltb_true in E. lra.
  - apply Qltb_false in E. lra.
Qed.

Lemma ranges_overlap_iff (lo1 hi1 lo2 hi2 : Q) :
  ranges_overlap lo1 hi1 lo2 hi2 <->
  lo1 < hi1 /\ lo2 < hi2 /\ lo1 < hi2 /\ lo2 < hi1.
Proof.
  unfold ranges_overlap.
  rewrite Q.max_lub_lt_iff, !Q.min_glb_lt_iff. tauto.
Qed.

(** One step of [QRectF::intersects]: the test on one axis. *)
Lemma axis_test (lo1 hi1 lo2 hi2 : Q) :
  lo1 <= hi1 -> lo2 <= hi2 ->
  (Qeq_bool lo1 hi1 = false /\ Qeq_bool lo2 hi2 = false
   /\ Qle_bool hi2 lo1 || Qle_bool hi1 lo2 = false)
  <-> ranges_overlap lo1 hi1 lo2 hi2.
Proof.
  intros H1 H2. rewrite ranges_overlap_iff, orb_false_iff.
  rewrite !Qle_bool_false. split.
  - intros (E1 & E2 & L1 & L2).
    apply Qeq_bool_neq in E1. apply Qeq_bool_neq in E2.
    repeat split; try assumption; lra.
  - intros (L1 & L2 & L3 & L4). repeat split; try assumption.
    + destruct (Qeq_bool lo1 hi1) eqn:E; [| reflexivity].
      apply Qeq_bool_iff in E. lra.
    + destruct (Qeq_bool lo2 hi2) eqn:E; [| reflexivity].
      apply Qeq_bool_iff in E. lra.
Qed.

Lemma intersects_iff (a b : QRectF) :
  intersects a b = true <-> rects_overlap a b.
Proof.
  unfold rects_overlap.
  rewrite <- (axis_test (left_edge a) (right_edge a)
                 (left_edge b) (right_edge b))
    by apply span_ordered.
  rewrite <- (axis_test (top_edge a) (bottom_edge a)
                 (top_edge b) (bottom_edge b))
    by apply span_ordered.
  unfold intersects, left_edge, right_edge, top_edge, bottom_edge.
  destruct (Qeq_bool (span_lo (rx a) (rw a)) (span_hi (rx a) (rw a)));
    [intuition discriminate |].
  destruct (Qeq_bool (span_lo (rx b) (rw b)) (span_hi (rx b) (rw b)));
    [intuition discriminate |].
  destruct (Qle_bool (span_hi (rx b) (rw b)) (span_lo (rx a) (rw a))
            || Qle_bool (span_hi (rx a) (rw a)) (span_lo (rx b) (rw b)));
    [intuition discriminate |].
  destruct (Qeq_bool (span_lo (ry a) (rh a)) (span_hi (ry a) (rh a)));
    [intuition discriminate |].
  destruct (Qeq_bool (span_lo (ry b) (rh b)) (span_hi (ry b) (rh b)));
    [intuition discriminate |].
  destruct (Qle_bool (span_hi (ry b) (rh b)) (span_lo (ry a) (rh a))
            || Qle_bool (span_hi (ry a) (rh a)) (span_lo (ry b) (rh b)));
    intuition discriminate.
Qed.

Lemma touching_no_overlap (a b : QRectF) :
  touching a b -> ~ rects_overlap a b.
Proof.
  unfold touching, rects_overlap. rewrite !ranges_overlap_iff.
  intros [H | [H | [H | H]]] [(X1 & X2 & X3 & X4) (Y1 & Y2 & Y3 & Y4)]; lra.
Qed.

Lemma bbox_intersects_exists (rects : list QRectF) (bbox : QRectF) :
  _bbox_intersects_rects rects bbox = true <->
  exists r, In r rects /\ intersects bbox r = true.
Proof.
  induction rects as [| r rest IH]; simpl.
  - split; [discriminate | intros (r & [] & _)].
  - destruct (intersects bbox r) eqn:E.
    + split; [intros _; exists r; auto | reflexivity].
    + rewrite IH. split.
      * intros (r' & Hin & Hr'). exists r'. auto.
      * intros (r' & [-> | Hin] & Hr'); [congruence | exists r'; auto].
Qed.

(** C8: the intersection test answers true exactly when some rectangle of
    the set overlaps the query box on both axes, the coordinate ranges
    overlapping strictly; when every rectangle of the set merely touches
    the box along an edge the answer is false. *)
Theorem bbox_intersects_strict_overlap (rects : list QRectF) (bbox : QRectF) :
  (_bbox_intersects_rects rects bbox = true <->
   exists r, In r rects /\ rects_overlap bbox r)
  /\ ((forall r, In r rects -> touching bbox r) ->
      _bbox_intersects_rects rects bbox = false).
Proof.
  assert (Hiff : _bbox_intersects_rects rects bbox = true <->
                 exists r, In r rects /\ rects_overlap bbox r).
  { rewrite bbox_intersects_exists. split.
    - intros (r & Hin & Hr). exists r. split; [assumption |].
      apply intersects_iff. assumption.
    - intros (r & Hin & Hr). exists r. split; [assumption |].
      apply intersects_iff. assumption. }
  split; [exact Hiff |].
  intros Htouch. apply not_true_is_false. intros E.
  apply Hiff in E. destruct E as (r & Hin & Hov).
  exact (touching_no_overlap bbox r (Htouch r Hin) Hov).
Qed.

(** A box whose right edge is the left edge of the only zone does not
    intersect it; a box one unit further right does. *)
Lemma bbox_intersects_strict_overlap_witness :
  _bbox_intersects_rects [mkRect 10 0 5 5] (mkRect 0 0 10 10) = false
  /\ _bbox_intersects_rects [mkRect 10 0 5 5] (mkRect 1 0 10 10) = true.
Proof.
  split.
  - apply (proj2 (bbox_intersects_strict_overlap
                    [mkRect 10 0 5 5] (mkRect 0 0 10 10))).
    intros r [<- | []]. left. vm_compute. reflexivity.
  - apply (proj1 (bbox_intersects_strict_overlap
                    [mkRect 10 0 5 5] (mkRect 1 0 10 10))).
    exists (mkRect 10 0 5 5). split; [left; reflexivity |].
    split; vm_compute; reflexivity.
Defined.

End Zones.

(** ** Marker store and telemetry gate *)

Section Markers.

Lemma key_eqb_refl (key : PinKey) : key_eqb key key = true.
Proof.
  unfold key_eqb. rewrite String.eqb_refl, Z.eqb_refl. reflexivity.
Qed.

Lemma key_in_snoc (key : PinKey) (l : list PinKey) :
  key_in key (l ++ [key]) = true.
Proof.
  unfold key_in. rewrite existsb_app. simpl.
  rewrite key_eqb_refl. apply orb_true_iff. right. reflexivity.
Qed.

Lemma marker_count_snoc (key : PinKey) (l : list PinKey) :
  marker_count key (l ++ [key]) = S (marker_count key l).
Proof.
  unfold marker_count. rewrite filter_app, List.length_app. simpl.
  rewrite key_eqb_refl. simpl. lia.
Qed.

Lemma marker_count_absent (key : PinKey) (l : list PinKey) :
  key_in key l = false -> marker_count key l = 0%nat.
Proof.
  unfold key_in, marker_count. induction l as [| k l IH]; simpl.
  - reflexivity.
  - intros H. apply orb_false_iff in H. destruct H as [Hk Hl].
    rewrite Hk. auto.
Qed.

(** [place_purple_pindrop] in terms of the drone's cell. *)
Lemma place_purple_pindrop_by_key (st : GridCanvas) :
  place_purple_pindrop st =
  match drone_key st with
  | None => st
  | Some key =>
      if key_in key (purple_pins st) then st
      else update (set_purple_pins st (purple_pins st ++ [key]))
  end.
Proof.
  unfold place_purple_pindrop, drone_key, cell_of.
  destruct (purple_drone st) as [pd |]; [| reflexivity].
  destruct (floordiv (ptx (pos pd)) (cell_size st)) as [col_idx | e];
    [| reflexivity].
  destruct (floordiv (pty (pos pd)) (cell_size st)) as [row_idx | e];
    [| reflexivity].
  simpl. destruct ((row_idx <? 1) || (col_idx <? 1)); [reflexivity |].
  destruct (key_in _ (purple_pins st)); reflexivity.
Qed.

Lemma drone_key_set_purple_pins (st : GridCanvas) (l : list PinKey) :
  drone_key (update (set_purple_pins st l)) = drone_key st.
Proof. reflexivity. Qed.

(** C6: [place_purple_pindrop] changes nothing (and raises nothing: it
    returns the state it was given) when there is no purple drone, or when
    the drone's grid cell has row index or column index below 1. *)
Theorem place_purple_pindrop_noop (st : GridCanvas) :
  purple_drone st = None
  \/ (exists pd row_idx col_idx,
        purple_drone st = Some pd
        /\ cell_of (cell_size st) (pos pd) = Returned (row_idx, col_idx)
        /\ (row_idx < 1 \/ col_idx < 1)) ->
  place_purple_pindrop st = st.
Proof.
  intros H. rewrite place_purple_pindrop_by_key. unfold drone_key.
  destruct H as [-> | (pd & row_idx & col_idx & -> & -> & Hcell)].
  - reflexivity.
  - replace ((row_idx <? 1) || (col_idx <? 1)) with true; [reflexivity |].
    symmetry. apply orb_true_iff.
    destruct Hcell; [left | right]; apply Z.ltb_lt; assumption.
Qed.

(** The drone hovers over the column header (x = 35 lies in column 0). *)
Lemma place_purple_pindrop_noop_witness :
  let st :=
    set_purple_drone (fresh_canvas 70) (Some (quad_at 35 150 1 1 63)) in
  place_purple_pindrop st = st
  /\ place_purple_pindrop (fresh_canvas 70) = fresh_canvas 70.
Proof.
  split.
  - apply place_purple_pindrop_noop. right.
    exists (quad_at 35 150 1 1 63), 2, 0.
    split; [reflexivity |]. split; [reflexivity | right; lia].
  - apply place_purple_pindrop_noop. left. reflexivity.
Defined.

Lemma marker_count_present (key : PinKey) (l : list PinKey) :
  key_in key l = true -> (1 <= marker_count key l)%nat.
Proof.
  unfold key_in, marker_count. induction l as [| k l IH]; simpl.
  - discriminate.
  - destruct (key_eqb key k); simpl; [lia | exact IH].
Qed.

(** Inserting [key] when it is absent leaves exactly one marker on it;
    when it is present nothing is inserted. *)
Lemma insert_if_absent_count (key : PinKey) (l : list PinKey) :
  (marker_count key l <= 1)%nat ->
  marker_count key (if key_in key l then l else l ++ [key]) = 1%nat.
Proof.
  intros Hle. destruct (key_in key l) eqn:E.
  - pose proof (marker_count_present key l E). lia.
  - rewrite marker_count_snoc, (marker_count_absent key l E). reflexivity.
Qed.

Lemma place_purple_pindrop_pins (st : GridCanvas) (key : PinKey) :
  drone_key st = Some key ->
  purple_pins (place_purple_pindrop st) =
  if key_in key (purple_pins st) then purple_pins st
  else purple_pins st ++ [key].
Proof.
  intros Hk. rewrite place_purple_pindrop_by_key, Hk.
  destruct (key_in key (purple_pins st)); reflexivity.
Qed.

Lemma place_purple_pindrop_twice (st : GridCanvas) :
  place_purple_pindrop (place_purple_pindrop st) = place_purple_pindrop st.
Proof.
  rewrite (place_purple_pindrop_by_key st).
  destruct (drone_key st) as [key |] eqn:Hk.
  - destruct (key_in key (purple_pins st)) eqn:Hin.
    + rewrite place_purple_pindrop_by_key, Hk, Hin. reflexivity.
    + rewrite place_purple_pindrop_by_key, drone_key_set_purple_pins, Hk.
      simpl. rewrite key_in_snoc. reflexivity.
  - rewrite place_purple_pindrop_by_key, Hk. reflexivity.
Qed.

Lemma add_pin_pins (row_letter : string) (col_num : Z) (st : GridCanvas) :
  pins (add_pin row_letter col_num st) =
  if key_in (upper row_letter, col_num) (pins st) then pins st
  else pins st ++ [(upper row_letter, col_num)].
Proof.
  unfold add_pin.
  destruct (key_in (upper row_letter, col_num) (pins st)); reflexivity.
Qed.

Lemma add_pin_present (row_letter : string) (col_num : Z) (st : GridCanvas) :
  key_in (upper row_letter, col_num) (pins st) = true ->
  add_pin row_letter col_num st = st.
Proof. intros H. unfold add_pin. rewrite H. reflexivity. Qed.

Lemma add_pin_then_present (row_letter : string) (col_num : Z)
  (st : GridCanvas) :
  key_in (upper row_letter, col_num) (pins (add_pin row_letter col_num st))
  = true.
Proof.
  rewrite add_pin_pins.
  destruct (key_in (upper row_letter, col_num) (pins st)) eqn:E;
    [exact E | apply key_in_snoc].
Qed.

(** C7: inserting a marker on a cell that already carries one of the same
    category changes nothing, so that inserting twice leaves exactly one;
    for the distinguished category through [place_purple_pindrop], for the
    standard category through [add_pin], whose row letters are compared
    after upper-casing. *)
Theorem marker_insert_idempotent (st : GridCanvas) :
  (forall key,
      drone_key st = Some key ->
      (key_in key (purple_pins st) = true -> place_purple_pindrop st = st)
      /\ ((marker_count key (purple_pins st) <= 1)%nat ->
          marker_count key
            (purple_pins (place_purple_pindrop (place_purple_pindrop st)))
          = 1%nat))
  /\ place_purple_pindrop (place_purple_pindrop st) = place_purple_pindrop st
  /\ (forall row_letter other_case col_num,
         upper other_case = upper row_letter ->
         (key_in (upper row_letter, col_num) (pins st) = true ->
          add_pin other_case col_num st = st)
         /\ add_pin other_case col_num (add_pin row_letter col_num st)
            = add_pin row_letter col_num st
         /\ ((marker_count (upper row_letter, col_num) (pins st) <= 1)%nat ->
             marker_count (upper row_letter, col_num)
               (pins (add_pin other_case col_num
                        (add_pin row_letter col_num st)))
             = 1%nat)).
Proof.
  split; [| split].
  - intros key Hk. split.
    + intros Hin. rewrite place_purple_pindrop_by_key, Hk, Hin. reflexivity.
    + intros Hle. rewrite place_purple_pindrop_twice.
      rewrite (place_purple_pindrop_pins st key Hk).
      apply insert_if_absent_count. exact Hle.
  - apply place_purple_pindrop_twice.
  - intros row_letter other_case col_num Hcase.
    assert (Hagain : add_pin other_case col_num (add_pin row_letter col_num st)
                     = add_pin row_letter col_num st).
    { apply add_pin_present. rewrite Hcase. apply add_pin_then_present. }
    split; [| split].
    + intros Hin. apply add_pin_present. rewrite Hcase. exact Hin.
    + exact Hagain.
    + intros Hle. rewrite Hagain, add_pin_pins.
      apply insert_if_absent_count. exact Hle.
Qed.

(** The drone is over cell B3; the standard pin is given as ["b"], then
    as ["B"]. *)
Lemma marker_insert_idempotent_witness :
  let st :=
    set_purple_drone (fresh_canvas 70) (Some (quad_at 250 150 1 1 63)) in
  purple_pins (place_purple_pindrop (place_purple_pindrop st))
  = [("B"%string, 3)]
  /\ marker_count ("B"%string, 3)
       (purple_pins (place_purple_pindrop (place_purple_pindrop st)))
     = 1%nat
  /\ add_pin "B" 9 (add_pin "b" 9 st) = add_pin "b" 9 st
  /\ marker_count ("B"%string, 9) (pins (add_pin "B" 9 (add_pin "b" 9 st)))
     = 1%nat.
Proof.
  intros st.
  destruct (marker_insert_idempotent st) as (Hpurple & _ & Hstd).
  destruct (Hpurple ("B"%string, 3) eq_refl) as [_ Hcount].
  destruct (Hstd "b"%string "B"%string 9 eq_refl) as (_ & Hagain & Hone).
  split; [reflexivity |]. split; [| split].
  - apply Hcount. vm_compute. lia.
  - exact Hagain.
  - apply Hone. vm_compute. lia.
Defined.

(** C1: whatever payload [(row, col)] an event carries, the gate performs
    one [place_purple_pindrop] on the canvas and nothing else: no standard
    marker is added, at most one purple marker is added, and that marker is
    on the cell under the purple drone in the state in which the event is
    received; two events that differ only in their payload have the same
    effect. *)
Theorem serial_pin_ignores_payload (row : string) (col : Z)
  (canvas : GridCanvas) :
  _on_serial_pin row col canvas = place_purple_pindrop canvas
  /\ pins (_on_serial_pin row col canvas) = pins canvas
  /\ (purple_pins (_on_serial_pin row col canvas) = purple_pins canvas
      \/ exists key,
           drone_key canvas = Some key
           /\ key_in key (purple_pins canvas) = false
           /\ purple_pins (_on_serial_pin row col canvas)
              = purple_pins canvas ++ [key])
  /\ (forall row' col',
         _on_serial_pin row' col' canvas = _on_serial_pin row col canvas).
Proof.
  unfold _on_serial_pin, try_pass.
  rewrite place_purple_pindrop_by_key.
  split; [reflexivity |].
  destruct (drone_key canvas) as [key |] eqn:Hk.
  - destruct (key_in key (purple_pins canvas)) eqn:Hin.
    + split; [reflexivity |]. split; [left; reflexivity | reflexivity].
    + split; [reflexivity |]. split; [| reflexivity].
      right. exists key. split; [reflexivity |]. split; [exact Hin |].
      reflexivity.
  - split; [reflexivity |]. split; [left; reflexivity | reflexivity].
Qed.

(** The scenario of the specification: the line ["B,9"] arrives while the
    purple drone is over cell C4; the new marker is on C4, not on B9. *)
Example serial_pin_b9 :
  let canvas :=
    set_purple_drone (fresh_canvas 70) (Some (quad_at 300 230 1 1 63)) in
  purple_pins (_on_serial_pin "B" 9 canvas) = [("C"%string, 4)]
  /\ pins (_on_serial_pin "B" 9 canvas) = [].
Proof. split; reflexivity. Qed.

(** C9: after [stop_quads] there is no quadcopter, no purple drone and no
    purple marker; the standard markers, the visited cells and the
    rectangles are the ones before the call; [stop_quads] on a stopped
    canvas, in particular a second [stop_quads], changes nothing. *)
Theorem stop_quads_frame (st : GridCanvas) :
  (quadcopters (stop_quads st) = []
   /\ purple_drone (stop_quads st) = None
   /\ purple_pins (stop_quads st) = []
   /\ pins (stop_quads st) = pins st
   /\ visited (stop_quads st) = visited st
   /\ rectangles (stop_quads st) = rectangles st)
  /\ stop_quads (stop_quads st) = stop_quads st
  /\ (stopped st -> stop_quads st = st).
Proof.
  destruct st as [cs w h ps rs qs timer vs pd pps n].
  unfold stop_quads, stopped; simpl. split; [| split].
  - destruct timer, qs, pps; simpl; repeat split; reflexivity.
  - destruct timer, qs, pps; reflexivity.
  - intros (-> & -> & -> & ->). reflexivity.
Qed.

(** Stopping a canvas that was never started. *)
Lemma stop_quads_frame_witness :
  stopped (fresh_canvas 70) /\ stop_quads (fresh_canvas 70) = fresh_canvas 70.
Proof.
  assert (Hs : stopped (fresh_canvas 70)) by (repeat split; reflexivity).
  split; [exact Hs |].
  apply (proj2 (proj2 (stop_quads_frame (fresh_canvas 70)))). exact Hs.
Defined.

End Markers.

(** ** Agent motion *)

Section Motion.
Local Open Scope Q_scope.

Variable a : Area.
Variable rects : list QRectF.
Variable rnd : nat -> Q.

(** The two axis steps obey the per-axis rule. *)
Lemma moves_axis_rule (q : Quad) :
  axis_rule rects q (move_y rects (move_x rects q)).
Proof.
  unfold axis_rule, blocked_y, blocked_x, move_y, move_x.
  destruct (_bbox_intersects_rects rects
              (bbox_at (ptx (pos q) + ptx (vel q)) (pty (pos q)) (size q)));
    simpl;
    match goal with
    | |- context [_bbox_intersects_rects rects ?b] =>
        destruct (_bbox_intersects_rects rects b)
    end; simpl; repeat split; reflexivity.
Qed.

(** The overlap recovery runs only for an agent that overlapped a zone
    before the tick and whose two moves were both blocked. *)
Lemma recovery_needs_overlap (q : Quad) :
  _bbox_intersects_rects rects (bbox_of (move_y rects (move_x rects q)))
  = true ->
  blocked_x rects q = true
  /\ blocked_y rects (move_x rects q) = true
  /\ _bbox_intersects_rects rects (bbox_of q) = true.
Proof.
  unfold blocked_y, blocked_x, bbox_of, move_x.
  destruct (_bbox_intersects_rects rects
              (bbox_at (ptx (pos q) + ptx (vel q)) (pty (pos q)) (size q)))
    eqn:Ex; unfold move_y; simpl.
  - destruct (_bbox_intersects_rects rects
                (bbox_at (ptx (pos q)) (pty (pos q) + pty (vel q)) (size q)))
      eqn:Ey; simpl; intros H; [auto | congruence].
  - destruct (_bbox_intersects_rects rects
                (bbox_at (ptx (pos q) + ptx (vel q))
                   (pty (pos q) + pty (vel q)) (size q)))
      eqn:Ey; simpl; intros H; congruence.
Qed.

Lemma recover_idle (k : nat) (q : Quad) :
  _bbox_intersects_rects rects (bbox_of q) = false ->
  recover rects rnd k q = (q, k).
Proof. intros H. unfold recover. rewrite H. reflexivity. Qed.

Lemma clamps_idle (bounce : Q -> Q -> Q) (k : nat) (q : Quad) :
  clamp_fires a q = false ->
  clamp_left bounce a rnd (q, k) = (q, k)
  /\ clamp_right bounce a rnd (q, k) = (q, k)
  /\ clamp_top bounce a rnd (q, k) = (q, k)
  /\ clamp_bottom bounce a rnd (q, k) = (q, k).
Proof.
  unfold clamp_fires, clamp_left, clamp_right, clamp_top, clamp_bottom.
  intros H. apply orb_false_iff in H. destruct H as [H Hb].
  apply orb_false_iff in H. destruct H as [H Ht].
  apply orb_false_iff in H. destruct H as [Hl Hr].
  rewrite Hl, Hr, Ht, Hb. repeat split; reflexivity.
Qed.

Lemma axis_rule_battery (q q' : Quad) (b : Q) :
  axis_rule rects q q' -> axis_rule rects q (set_battery q' b).
Proof. intros H. exact H. Qed.

Lemma tick_purple_idle (k : nat) (pd : Quad) :
  clamp_fires a (before_bounds_purple rects pd) = false ->
  tick_purple a rects rnd k pd =
  drain 0.03 (before_bounds_purple rects pd, k).
Proof.
  intros H. unfold tick_purple. fold (before_bounds_purple rects pd).
  destruct (clamps_idle rebound_purple k _ H) as (Hl & Hr & Ht & Hb).
  rewrite Hl, Hr, Ht, Hb. reflexivity.
Qed.

Lemma tick_quad_idle (k : nat) (q : Quad) :
  _bbox_intersects_rects rects (bbox_of (move_y rects (move_x rects q)))
  = false ->
  clamp_fires a (move_y rects (move_x rects q)) = false ->
  tick_quad a rects rnd k q =
  drain 0.02 (move_y rects (move_x rects q), k).
Proof.
  intros Hfree H. unfold tick_quad.
  rewrite (recover_idle k _ Hfree).
  destruct (clamps_idle rebound k _ H) as (Hl & Hr & Ht & Hb).
  rewrite Hl, Hr, Ht. unfold drain at 1.
  assert (Hb' : clamp_fires a
                  (set_battery (move_y rects (move_x rects q))
                     (Qmax 0 (battery (move_y rects (move_x rects q)) - 0.02)))
                = false) by exact H.
  destruct (clamps_idle rebound k _ Hb') as (_ & _ & _ & Hb'').
  rewrite Hb''. reflexivity.
Qed.

(** C5, as the specification states it, fails for an ordinary quadcopter
    that a zone already covers: its X move is blocked and no bounds test
    fires, yet the tick ends with the quadcopter six nudges away and with a
    freshly drawn X velocity of the same sign as before the tick. *)
Lemma blocked_quad_recovers_instead :
  let q := quad_at 200 150 1 1 63 in
  let zone := [mkRect 0 0 400 300] in
  let area := play_area (fresh_canvas 70) in
  let draws := fun _ : nat => 0.75 in
  let q' := fst (tick_quad area zone draws 0 q) in
  blocked_x zone q = true
  /\ clamp_fires area (before_bounds_quad zone draws 0 q) = false
  /\ ptx (pos q) == 200 /\ ptx (pos q') == 194
  /\ 0 < ptx (vel q) /\ 0 < ptx (vel q')
  /\ ~ (ptx (pos q') == ptx (pos q) /\ ptx (vel q') == - ptx (vel q)).
Proof.
  intros q zone area draws q'.
  split; [reflexivity |]. split; [reflexivity |].
  split; [vm_compute; reflexivity |]. split; [vm_compute; reflexivity |].
  split; [vm_compute; reflexivity |]. split; [vm_compute; reflexivity |].
  intros [Hpos _]. vm_compute in Hpos. discriminate Hpos.
Qed.

(** C5, amended: the two axis steps of a tick leave an agent whose
    proposed X move meets a zone at its X position with its X velocity
    negated, and otherwise moved by its X velocity; likewise on Y, proposed
    from the position the X step left.  When no bounds test fires this is
    also the agent at the end of the tick: for the purple drone always, for
    an ordinary quadcopter provided its box after the two axis steps meets
    no zone (the overlap recovery does not run), which is the case whenever
    its box met no zone before the tick. *)
Theorem per_axis_collision_rule (k : nat) (q : Quad) :
  axis_rule rects q (move_y rects (move_x rects q))
  /\ (clamp_fires a (before_bounds_purple rects q) = false ->
      axis_rule rects q (fst (tick_purple a rects rnd k q)))
  /\ (_bbox_intersects_rects rects
        (bbox_of (move_y rects (move_x rects q))) = false ->
      clamp_fires a (before_bounds_quad rects rnd k q) = false ->
      axis_rule rects q (fst (tick_quad a rects rnd k q)))
  /\ (_bbox_intersects_rects rects (bbox_of q) = false ->
      _bbox_intersects_rects rects
        (bbox_of (move_y rects (move_x rects q))) = false).
Proof.
  split; [apply moves_axis_rule |]. split; [| split].
  - intros Hclamp. rewrite (tick_purple_idle k q Hclamp).
    apply axis_rule_battery, moves_axis_rule.
  - intros Hfree Hclamp. unfold before_bounds_quad in Hclamp.
    rewrite (recover_idle k _ Hfree) in Hclamp. simpl in Hclamp.
    rewrite (tick_quad_idle k q Hfree Hclamp).
    apply axis_rule_battery, moves_axis_rule.
  - intros Hstart. apply not_true_is_false. intros Hover.
    destruct (recovery_needs_overlap q Hover) as (_ & _ & Hq). congruence.
Qed.

End Motion.

(** A zone to the right of the agent blocks its X move and leaves its Y
    move free. *)
Lemma per_axis_collision_rule_witness :
  let q := quad_at 200 150 1 1 63 in
  let zone := [mkRect 232 100 50 100] in
  let area := play_area (fresh_canvas 70) in
  let draws := fun _ : nat => 0.75%Q in
  blocked_x zone q = true
  /\ blocked_y zone (move_x zone q) = false
  /\ axis_rule zone q (fst (tick_purple area zone draws 0 q))
  /\ axis_rule zone q (fst (tick_quad area zone draws 0 q)).
Proof.
  intros q zone area draws.
  destruct (per_axis_collision_rule area zone draws 0 q)
    as (_ & Hpurple & Hquad & Hstart).
  split; [reflexivity |]. split; [reflexivity |]. split.
  - apply Hpurple. reflexivity.
  - apply Hquad; [apply Hstart |]; reflexivity.
Defined.

(** ** Boundary containment *)

Section Containment.
Local Open Scope Q_scope.

Variable a : Area.
Variable rects : list QRectF.
Variable rnd : nat -> Q.

(** Read the outcome of the bounds tests as order facts. *)
Ltac bounds_facts :=
  repeat match goal with
    | H : Qltb _ _ = true |- _ => apply Qltb_true in H
    | H : Qltb _ _ = false |- _ => apply Qltb_false in H
    end.

(** The two X tests, by cases on which of them fired.  Nothing but the
    outcome of the tests is used: no sum is ever simplified. *)
Lemma clamps_x_settled (bounce : Q -> Q -> Q) (k : nat) (q : Quad) :
  let q' := fst (clamp_right bounce a rnd (clamp_left bounce a rnd (q, k))) in
  axis_settled (area_x0 a) (area_x1 a) (ptx (pos q')) (size q' / 2)
  /\ pty (pos q') = pty (pos q) /\ size q' = size q.
Proof.
  unfold clamp_left.
  destruct (Qltb (ptx (pos q) - size q / 2) (inject_Z (area_x0 a))) eqn:El;
    unfold clamp_right; cbn [pos size vel set_pos_x set_vel_x ptx pty];
    match goal with
    | |- context [Qltb (inject_Z (area_x1 a)) ?e] =>
        destruct (Qltb (inject_Z (area_x1 a)) e) eqn:Er
    end;
    cbn [pos size vel set_pos_x set_vel_x ptx pty fst];
    bounds_facts; unfold axis_settled;
    (split; [| split; reflexivity]).
  - right. right. reflexivity.
  - right. left. split; [reflexivity | exact Er].
  - right. right. reflexivity.
  - left. split; [exact El | exact Er].
Qed.

(** The two Y tests, with a battery drain between them or not. *)
Lemma clamps_y_settled (bounce : Q -> Q -> Q) (between : bool)
  (amount : Q) (k : nat) (q : Quad) :
  let q' :=
    fst (clamp_bottom bounce a rnd
           ((if between then drain amount else fun qk => qk)
              (clamp_top bounce a rnd (q, k)))) in
  axis_settled (area_y0 a) (area_y1 a) (pty (pos q')) (size q' / 2)
  /\ ptx (pos q') = ptx (pos q) /\ size q' = size q.
Proof.
  unfold clamp_top.
  destruct (Qltb (pty (pos q) - size q / 2) (inject_Z (area_y0 a))) eqn:Et;
    destruct between; unfold drain, clamp_bottom;
    cbn [pos size vel set_pos_y set_vel_y set_battery ptx pty];
    match goal with
    | |- context [Qltb (inject_Z (area_y1 a)) ?e] =>
        destruct (Qltb (inject_Z (area_y1 a)) e) eqn:Eb
    end;
    cbn [pos size vel set_pos_y set_vel_y set_battery ptx pty fst];
    bounds_facts; unfold axis_settled;
    (split; [| split; reflexivity]);
    first [ right; right; reflexivity
          | right; left; split; [reflexivity | exact Eb]
          | left; split; [exact Et | exact Eb] ].
Qed.

(** The four bounds tests in the order of the source, with the battery
    drain before the last one (quadcopters) or after it (purple drone). *)
Lemma clamps_settled (bounce : Q -> Q -> Q) (amount : Q) (k : nat) (q : Quad) :
  settled a
    (fst (clamp_bottom bounce a rnd
            (drain amount
               (clamp_top bounce a rnd
                  (clamp_right bounce a rnd
                     (clamp_left bounce a rnd (q, k)))))))
  /\ settled a
       (fst (drain amount
               (clamp_bottom bounce a rnd
                  (clamp_top bounce a rnd
                     (clamp_right bounce a rnd
                        (clamp_left bounce a rnd (q, k))))))).
Proof.
  destruct (clamps_x_settled bounce k q) as (Hx & Hy & Hsz).
  destruct (clamp_right bounce a rnd (clamp_left bounce a rnd (q, k)))
    as [q1 k1].
  cbn [fst] in Hx, Hy, Hsz.
  destruct (clamps_y_settled bounce true amount k1 q1) as (Hy1 & Hx1 & Hsz1).
  destruct (clamps_y_settled bounce false amount k1 q1) as (Hy2 & Hx2 & Hsz2).
  cbv beta iota in Hy1, Hx1, Hsz1, Hy2, Hx2, Hsz2.
  unfold settled. split.
  - rewrite Hx1, Hsz1 at 1. rewrite <- Hsz1 at 1.
    split; [| exact Hy1]. rewrite Hsz1. exact Hx.
  - destruct (clamp_bottom bounce a rnd (clamp_top bounce a rnd (q1, k1)))
      as [q2 k2].
    cbn [fst] in Hy2, Hx2, Hsz2. unfold drain.
    cbn [fst pos size set_battery].
    rewrite Hx2. split; [| exact Hy2]. rewrite Hsz2. exact Hx.
Qed.

(** In each of the three states the centre is between the edges, when
    half the size fits between them.  Only the order of the numbers is
    used: a sum with a number that is not negative is not smaller, a
    difference is not larger. *)
Lemma axis_settled_centre (lo hi : Z) (p half : Q) :
  0 <= half -> half <= inject_Z hi - inject_Z lo ->
  axis_settled lo hi p half ->
  inject_Z lo <= p <= inject_Z hi.
Proof.
  intros H0 Hroom [[Hl Hr] | [[Hp Hr] | Hp]].
  - split; lra.
  - rewrite Hp in *. split; lra.
  - rewrite Hp. split; lra.
Qed.

Lemma settled_centre (q : Quad) :
  settled a q -> roomy a q -> centre_inside a q.
Proof.
  intros [Hx Hy] (Hsz & Hw & Hh).
  assert (H0 : 0 <= size q / 2).
  { apply Qle_shift_div_l; [reflexivity | lra]. }
  split; eapply axis_settled_centre; eassumption.
Qed.

Lemma tick_quad_settled (k : nat) (q : Quad) :
  settled a (fst (tick_quad a rects rnd k q)).
Proof.
  unfold tick_quad.
  destruct (recover rects rnd k (move_y rects (move_x rects q))) as [q1 k1].
  apply clamps_settled.
Qed.

Lemma tick_purple_settled (k : nat) (pd : Quad) :
  settled a (fst (tick_purple a rects rnd k pd)).
Proof. unfold tick_purple. apply clamps_settled. Qed.

Lemma tick_quads_settled (k : nat) (qs : list Quad) :
  Forall (settled a) (fst (tick_quads a rects rnd k qs)).
Proof.
  revert k. induction qs as [| q qs IH]; intros k; simpl; [constructor |].
  pose proof (tick_quad_settled k q) as Hin.
  destruct (tick_quad a rects rnd k q) as [q' k1].
  specialize (IH k1).
  destruct (tick_quads a rects rnd k1 qs) as [qs' k2].
  constructor; assumption.
Qed.

End Containment.

Section WholeTick.

(** The agents after a tick that found at least one quadcopter. *)
Lemma tick_agents (rnd : nat -> Q) (k : nat) (st : GridCanvas) :
  quadcopters st <> [] ->
  quadcopters (fst (_tick rnd k st)) =
  fst (tick_quads (play_area st) (rectangles st) rnd k (quadcopters st))
  /\ exists k1,
       purple_drone (fst (_tick rnd k st)) =
       option_map
         (fun pd => fst (tick_purple (play_area st) (rectangles st) rnd k1 pd))
         (purple_drone st).
Proof.
  intros Hne. unfold _tick.
  destruct (quadcopters st) as [| q0 qs0] eqn:Hq; [congruence |].
  destruct (tick_quads (play_area st) (rectangles st) rnd k (q0 :: qs0))
    as [qs k1].
  cbn [purple_drone set_visited update set_quadcopters rectangles].
  destruct (purple_drone st) as [pd |] eqn:Hpd.
  - destruct (tick_purple (play_area st) (rectangles st) rnd k1 pd)
      as [pd' k2] eqn:Hp.
    split; [reflexivity |]. exists k1. simpl. rewrite Hp. reflexivity.
  - split; [reflexivity |]. exists k1. simpl. exact Hpd.
Qed.

(** C4, as the specification states it, fails when the playable area is
    narrower than the agent: with cell size 200 on a 400 x 300 widget the
    area is 10 wide and the agent 180; the left test puts the centre at
    290, the right test then puts it at 120, and the left edge of the box
    ends at 30, left of the area (which starts at 200). *)
Lemma narrow_area_pushes_corner_out :
  let st :=
    set_quadcopters (fresh_canvas 200) [quad_at 210.5 210.5 1 1 180] in
  let st' := fst (_tick (fun _ => 0.5%Q) 0 st) in
  let q' := hd (quad_at 0 0 0 0 0) (quadcopters st') in
  In q' (quadcopters st')
  /\ (ptx (pos q') - size q' / 2 == 30)%Q
  /\ (inject_Z (area_x0 (play_area st)) == 200)%Q
  /\ ~ inside (play_area st) q'.
Proof.
  intros st st' q'.
  split; [vm_compute; left; reflexivity |].
  split; [vm_compute; reflexivity |].
  split; [vm_compute; reflexivity |].
  intros [Hleft _]. revert Hleft. apply Qlt_not_le.
  vm_compute. reflexivity.
Qed.

(** C4, amended: after a tick that found at least one quadcopter, hence
    applied its bounds tests, every agent, ordinary or purple, is in one of
    three states on each axis: no corner of its bounding box is outside
    the playable area (both bounds tests are false of it); or it was
    clamped to the near edge, its centre being exactly [area_0 + half],
    with the far corner inside; or it was clamped to the far edge, its
    centre being exactly [area_1 - half].  In a clamped state the corner
    at that edge is [(area_0 + half) - half], resp.
    [(area_1 - half) + half]: the edge itself up to the rounding of these
    two operations; and after a clamp to the far edge the near corner is
    outside when the area is narrower than the agent.  In each state the
    centre of the agent is in the playable area, provided its size is not
    negative and half of it is at most the width and the height of the
    area. *)
Theorem tick_leaves_agents_settled (rnd : nat -> Q) (k : nat)
  (st : GridCanvas) :
  quadcopters st <> [] ->
  (forall q', In q' (quadcopters (fst (_tick rnd k st))) ->
              settled (play_area st) q'
              /\ (roomy (play_area st) q' -> centre_inside (play_area st) q'))
  /\ (forall pd', purple_drone (fst (_tick rnd k st)) = Some pd' ->
                  settled (play_area st) pd'
                  /\ (roomy (play_area st) pd' ->
                      centre_inside (play_area st) pd')).
Proof.
  intros Hne.
  destruct (tick_agents rnd k st Hne) as [Hqs (k1 & Hpd)].
  assert (Hboth : forall q, settled (play_area st) q ->
                    settled (play_area st) q
                    /\ (roomy (play_area st) q ->
                        centre_inside (play_area st) q)).
  { intros q Hq. split; [exact Hq | apply settled_centre; exact Hq]. }
  split.
  - rewrite Hqs. intros q' Hin. apply Hboth. revert q' Hin.
    apply Forall_forall. apply tick_quads_settled.
  - intros pd' Hpd'. rewrite Hpd in Hpd'.
    destruct (purple_drone st) as [pd |]; [| discriminate].
    simpl in Hpd'. injection Hpd' as <-.
    apply Hboth. apply tick_purple_settled.
Qed.

End WholeTick.

(** A quadcopter leaving through the top-left corner and a purple drone
    leaving through the bottom-right corner of the default canvas. *)
Lemma tick_leaves_agents_settled_witness :
  let st :=
    set_purple_drone
      (set_quadcopters (fresh_canvas 70) [quad_at 100 100 (-3) (-3) 63])
      (Some (quad_at 320 220 2 2 63)) in
  (forall q', In q' (quadcopters (fst (_tick (fun _ => 0.5%Q) 0 st))) ->
              settled (play_area st) q'
              /\ (roomy (play_area st) q' -> centre_inside (play_area st) q'))
  /\ (forall pd',
         purple_drone (fst (_tick (fun _ => 0.5%Q) 0 st)) = Some pd' ->
         settled (play_area st) pd'
         /\ (roomy (play_area st) pd' -> centre_inside (play_area st) pd')).
Proof.
  intros st. apply tick_leaves_agents_settled. discriminate.
Defined.

(** * Further properties of the code *)

(** Read boolean tests on character codes and on coordinates as facts. *)
Ltac test_facts :=
  repeat match goal with
    | H : _ && _ = true |- _ => apply andb_true_iff in H; destruct H
    | H : _ || _ = false |- _ => apply orb_false_iff in H; destruct H
    | H : (_ <=? _) = true |- _ => apply Z.leb_le in H
    | H : (_ <=? _) = false |- _ => apply Z.leb_gt in H
    | H : (_ <? _) = true |- _ => apply Z.ltb_lt in H
    | H : (_ <? _) = false |- _ => apply Z.ltb_ge in H
    | H : (_ =? _) = true |- _ => apply Z.eqb_eq in H
    | H : (_ =? _) = false |- _ => apply Z.eqb_neq in H
    | H : Qltb _ _ = true |- _ => apply Qltb_true in H
    | H : Qltb _ _ = false |- _ => apply Qltb_false in H
    | H : Qle_bool _ _ = true |- _ => apply Qle_bool_iff in H
    | H : Qle_bool _ _ = false |- _ => apply Qle_bool_false in H
    end.

(** ** Labels, the other way round *)

Section LabelBijection.

Lemma chr_ord (c : ascii) : chr (ord c) = c.
Proof. unfold chr, ord. rewrite Nat2Z.id. apply ascii_nat_embedding. Qed.

Lemma upper_letter_code (c : ascii) :
  is_upper_letter c = true -> 65 <= ord c <= 90.
Proof.
  unfold is_upper_letter. change (ord "A") with 65. change (ord "Z") with 90.
  intros H. test_facts. lia.
Qed.

(** Reading a string of letters A-Z and writing the value back gives the
    letters again. *)
Lemma letters_label_value (l : list ascii) :
  Forall (fun c => is_upper_letter c = true) l ->
  0 <= label_value l /\ letters (label_value l) = l.
Proof.
  induction l as [| c l IH] using rev_ind; intros Hl.
  - split; [unfold label_value; simpl; lia | apply letters_nonpos].
    unfold label_value. simpl. lia.
  - apply Forall_app in Hl. destruct Hl as [Hl Hc].
    apply Forall_inv in Hc. apply upper_letter_code in Hc.
    destruct (IH Hl) as [Hv Hback].
    rewrite label_value_snoc. change (ord "A") with 65.
    set (v := label_value l) in *. set (d := ord c - 65) in *.
    assert (Hq : (v * 26 + (d + 1) - 1) / 26 = v).
    { replace (v * 26 + (d + 1) - 1) with (d + v * 26) by lia.
      rewrite Z.div_add by lia. rewrite Z.div_small by lia. lia. }
    assert (Hr : (v * 26 + (d + 1) - 1) mod 26 = d).
    { replace (v * 26 + (d + 1) - 1) with (d + v * 26) by lia.
      rewrite Z.mod_add by lia. apply Z.mod_small. lia. }
    split; [lia |].
    rewrite letters_pos by lia. rewrite Hq, Hr, Hback.
    change (ord "A") with 65. unfold d.
    replace (65 + (ord c - 65)) with (ord c) by lia.
    rewrite chr_ord. reflexivity.
Qed.

(** Every string of letters A-Z is the label of the index it reads as: with
    C2, labels and positive indices are in bijection. *)
Theorem letters_index_letters (s : string) :
  Forall (fun c => is_upper_letter c = true) (list_ascii_of_string s) ->
  exists n,
    _letters_to_index s = Returned n
    /\ _index_to_letters n = s
    /\ (s <> EmptyString -> 1 <= n).
Proof.
  intros Hs. exists (label_value (list_ascii_of_string s)).
  destruct (letters_label_value _ Hs) as [Hv Hback].
  split; [| split].
  - rewrite letters_to_index_value. unfold upper.
    rewrite list_ascii_of_string_of_list_ascii.
    rewrite (upper_char_fixes_upper _ Hs), (filter_all_upper _ Hs).
    reflexivity.
  - unfold _index_to_letters. fold (letters (label_value (list_ascii_of_string s))).
    rewrite Hback. apply string_of_list_ascii_of_string.
  - intros Hne.
    destruct (Z.eq_dec (label_value (list_ascii_of_string s)) 0) as [H0 | H0];
      [| lia].
    rewrite H0, letters_nonpos in Hback by lia.
    exfalso. apply Hne. rewrite <- (string_of_list_ascii_of_string s).
    rewrite <- Hback. reflexivity.
Qed.

Lemma letters_index_letters_witness :
  exists n,
    _letters_to_index "ZZ" = Returned n
    /\ _index_to_letters n = "ZZ"%string
    /\ ("ZZ"%string <> EmptyString -> 1 <= n).
Proof.
  apply (letters_index_letters "ZZ").
  repeat constructor.
Defined.

(** Two different positive indices never get the same label. *)
Theorem index_to_letters_injective (n m : Z) :
  1 <= n -> 1 <= m -> n <> m -> _index_to_letters n <> _index_to_letters m.
Proof.
  intros Hn Hm Hne Heq. apply Hne.
  apply (f_equal list_ascii_of_string) in Heq.
  rewrite !index_to_letters_chars in Heq.
  rewrite <- (label_value_letters n), <- (label_value_letters m) by lia.
  rewrite Heq. reflexivity.
Qed.

Lemma index_to_letters_injective_witness :
  _index_to_letters 26 <> _index_to_letters 27.
Proof.
  apply (index_to_letters_injective 26 27); lia.
Defined.

End LabelBijection.

(** ** Starting, stopping, toggling *)

Section StartStop.

Variable rnd : nat -> Q.

Lemma stop_quads_fields (st : GridCanvas) :
  cell_size (stop_quads st) = cell_size st
  /\ width (stop_quads st) = width st
  /\ height (stop_quads st) = height st
  /\ anim_timer_active (stop_quads st) = false
  /\ quadcopters (stop_quads st) = []
  /\ rectangles (stop_quads st) = rectangles st
  /\ pins (stop_quads st) = pins st
  /\ visited (stop_quads st) = visited st
  /\ purple_pins (stop_quads st) = [].
Proof.
  destruct st as [cs w h ps rs qs timer vs pd pps n].
  unfold stop_quads; simpl.
  destruct timer, qs, pps; simpl; repeat split; reflexivity.
Qed.

Lemma play_area_stop (st : GridCanvas) :
  play_area (stop_quads st) = play_area st.
Proof.
  destruct (stop_quads_fields st) as (Hcs & Hw & Hh & _).
  unfold play_area. rewrite Hcs, Hw, Hh. reflexivity.
Qed.

Lemma try_place_size (n : nat) (bat_lo : Q) (a : Area)
  (rects : list QRectF) (k : nat) (sz : Q) (q : Quad) (k' : nat) :
  try_place n bat_lo a rects rnd k sz = (Some q, k') -> size q = sz.
Proof.
  revert k. induction n as [| n IH]; intros k; simpl; [discriminate |].
  destruct (_bbox_intersects_rects rects _); [apply IH |].
  intros H. injection H as <- _. reflexivity.
Qed.

Lemma spawn_quad_size (a : Area) (rects : list QRectF) (k : nat) (cs : Z) :
  size (fst (spawn_quad a rects rnd k cs)) = (inject_Z cs * 0.9)%Q.
Proof.
  unfold spawn_quad.
  destruct (try_place 40 60 a rects rnd k (inject_Z cs * 0.9)) as [[q |] k']
    eqn:E; simpl; [| reflexivity].
  exact (try_place_size _ _ _ _ _ _ _ _ E).
Qed.

Lemma spawn_purple_size (a : Area) (rects : list QRectF) (k : nat) (cs : Z) :
  size (fst (spawn_purple a rects rnd k cs)) = (inject_Z cs * 0.9)%Q.
Proof.
  unfold spawn_purple.
  destruct (try_place 60 80 a rects rnd k (inject_Z cs * 0.9)) as [[q |] k']
    eqn:E; simpl; [| reflexivity].
  exact (try_place_size _ _ _ _ _ _ _ _ E).
Qed.

Lemma spawn_quads_shape (n : nat) (a : Area) (rects : list QRectF)
  (k : nat) (cs : Z) :
  List.length (fst (spawn_quads n a rects rnd k cs)) = n
  /\ Forall (fun q => size q = (inject_Z cs * 0.9)%Q)
       (fst (spawn_quads n a rects rnd k cs)).
Proof.
  revert k. induction n as [| n IH]; intros k; simpl; [auto |].
  pose proof (spawn_quad_size a rects k cs) as Hq.
  destruct (spawn_quad a rects rnd k cs) as [q k1].
  specialize (IH k1).
  destruct (spawn_quads n a rects rnd k1 cs) as [rest k2].
  simpl in *. destruct IH as [Hlen Hall]. split; [lia | constructor; auto].
Qed.

(** The agents of [start_quads], read off its definition. *)
Lemma start_quads_agents (k : nat) (count : Z) (st : GridCanvas) :
  exists k1,
    quadcopters (fst (start_quads rnd k count st)) =
    fst (spawn_quads (Z.to_nat (Z.max 0 count)) (play_area st)
           (rectangles st) rnd k (cell_size st))
    /\ purple_drone (fst (start_quads rnd k count st)) =
       Some (fst (spawn_purple (play_area st) (rectangles st) rnd k1
                    (cell_size st))).
Proof.
  unfold start_quads. rewrite play_area_stop.
  destruct (stop_quads_fields st)
    as (Hcs & _ & _ & _ & Hqs & Hrs & _ & _ & _).
  rewrite Hcs, Hrs, Hqs.
  destruct (spawn_quads (Z.to_nat (Z.max 0 count)) (play_area st)
              (rectangles st) rnd k (cell_size st)) as [qs k1].
  cbn [rectangles cell_size set_quadcopters app].
  rewrite Hcs, Hrs. exists k1.
  destruct (spawn_purple (play_area st) (rectangles st) rnd k1 (cell_size st))
    as [pd k2].
  cbn [quadcopters set_purple_drone set_quadcopters].
  destruct qs; split; reflexivity.
Qed.

(** The purple drone of [start_quads] is placed from the draw at which the
    quadcopters stopped. *)
Lemma start_quads_drone_at (k : nat) (count : Z) (st : GridCanvas) :
  purple_drone (fst (start_quads rnd k count st)) =
  Some (fst (spawn_purple (play_area st) (rectangles st) rnd
               (snd (spawn_quads (Z.to_nat (Z.max 0 count)) (play_area st)
                       (rectangles st) rnd k (cell_size st)))
               (cell_size st))).
Proof.
  unfold start_quads. rewrite play_area_stop.
  destruct (stop_quads_fields st)
    as (Hcs & _ & _ & _ & Hqs & Hrs & _ & _ & _).
  rewrite Hcs, Hrs, Hqs.
  destruct (spawn_quads (Z.to_nat (Z.max 0 count)) (play_area st)
              (rectangles st) rnd k (cell_size st)) as [qs k1].
  cbn [rectangles cell_size set_quadcopters app snd].
  rewrite Hcs, Hrs.
  destruct (spawn_purple (play_area st) (rectangles st) rnd k1 (cell_size st))
    as [pd k2].
  cbn [quadcopters set_purple_drone set_quadcopters].
  destruct qs; reflexivity.
Qed.

Lemma start_quads_frame (k : nat) (count : Z) (st : GridCanvas) :
  cell_size (fst (start_quads rnd k count st)) = cell_size st
  /\ width (fst (start_quads rnd k count st)) = width st
  /\ height (fst (start_quads rnd k count st)) = height st
  /\ pins (fst (start_quads rnd k count st)) = pins st
  /\ rectangles (fst (start_quads rnd k count st)) = rectangles st
  /\ visited (fst (start_quads rnd k count st)) = visited st
  /\ purple_pins (fst (start_quads rnd k count st)) = []
  /\ anim_timer_active (fst (start_quads rnd k count st)) =
     match quadcopters (fst (start_quads rnd k count st)) with
     | [] => false
     | _ :: _ => true
     end.
Proof.
  unfold start_quads.
  destruct (stop_quads_fields st)
    as (Hcs & Hw & Hh & Ht & Hqs & Hrs & Hps & Hvs & Hpp).
  rewrite Hqs.
  destruct (spawn_quads _ _ _ _ _ _) as [qs k1].
  cbn [rectangles cell_size set_quadcopters app].
  destruct (spawn_purple _ _ _ _ _) as [pd k2].
  cbn [quadcopters set_purple_drone set_quadcopters].
  destruct qs; simpl; rewrite ?Ht; repeat split; assumption.
Qed.

Lemma start_quads_length (k : nat) (count : Z) (st : GridCanvas) :
  List.length (quadcopters (fst (start_quads rnd k count st)))
  = Z.to_nat (Z.max 0 count).
Proof.
  destruct (start_quads_agents k count st) as (k1 & Hqs & _).
  rewrite Hqs. apply spawn_quads_shape.
Qed.

Lemma start_quads_timer (k : nat) (count : Z) (st : GridCanvas) :
  anim_timer_active (fst (start_quads rnd k count st)) = (0 <? count).
Proof.
  pose proof (start_quads_length k count st) as Hlen.
  destruct (start_quads_frame k count st) as (_ & _ & _ & _ & _ & _ & _ & Ht).
  rewrite Ht.
  destruct (quadcopters (fst (start_quads rnd k count st))) as [| q qs];
    simpl in Hlen; symmetry.
  - apply Z.ltb_ge. lia.
  - apply Z.ltb_lt. lia.
Qed.

Lemma start_quads_drone (k : nat) (count : Z) (st : GridCanvas) :
  exists pd,
    purple_drone (fst (start_quads rnd k count st)) = Some pd
    /\ size pd = (inject_Z (cell_size st) * 0.9)%Q.
Proof.
  destruct (start_quads_agents k count st) as (k1 & _ & Hpd).
  eexists. split; [exact Hpd | apply spawn_purple_size].
Qed.

(** [start_quads count] leaves [max(0, count)] quadcopters and one purple
    drone, all of size [cell_size * 0.9]; the timer runs exactly when there
    is a quadcopter; the purple markers are gone, and the standard markers,
    the rectangles and the visited cells are kept. *)
Theorem start_quads_population (k : nat) (count : Z) (st : GridCanvas) :
  List.length (quadcopters (fst (start_quads rnd k count st)))
  = Z.to_nat (Z.max 0 count)
  /\ Forall (fun q => size q = (inject_Z (cell_size st) * 0.9)%Q)
       (quadcopters (fst (start_quads rnd k count st)))
  /\ (exists pd,
         purple_drone (fst (start_quads rnd k count st)) = Some pd
         /\ size pd = (inject_Z (cell_size st) * 0.9)%Q)
  /\ anim_timer_active (fst (start_quads rnd k count st)) = (0 <? count)
  /\ purple_pins (fst (start_quads rnd k count st)) = []
  /\ pins (fst (start_quads rnd k count st)) = pins st
  /\ rectangles (fst (start_quads rnd k count st)) = rectangles st
  /\ visited (fst (start_quads rnd k count st)) = visited st.
Proof.
  destruct (start_quads_agents k count st) as (k1 & Hqs & _).
  destruct (start_quads_frame k count st)
    as (_ & _ & _ & Hps & Hrs & Hvs & Hpp & _).
  split; [apply start_quads_length |].
  split; [rewrite Hqs; apply spawn_quads_shape |].
  split; [apply start_quads_drone |].
  split; [apply start_quads_timer |].
  repeat split; assumption.
Qed.

(** [start_quads] with a count of 0 or less leaves a purple drone and no
    running timer; should [_tick] be called all the same, it returns at
    once: the drone neither moves nor marks a cell. *)
Theorem start_without_quads_freezes_drone (k : nat) (count : Z)
  (st : GridCanvas) :
  count <= 0 ->
  purple_drone (fst (start_quads rnd k count st)) <> None
  /\ anim_timer_active (fst (start_quads rnd k count st)) = false
  /\ forall rnd' k',
       _tick rnd' k' (fst (start_quads rnd k count st))
       = (fst (start_quads rnd k count st), k').
Proof.
  intros Hcount.
  pose proof (start_quads_length k count st) as Hlen.
  destruct (start_quads_drone k count st) as (pd & Hpd & _).
  pose proof (start_quads_timer k count st) as Ht.
  replace (Z.to_nat (Z.max 0 count)) with 0%nat in Hlen by lia.
  split; [rewrite Hpd; discriminate |].
  split; [rewrite Ht; apply Z.ltb_ge; lia |].
  intros rnd' k'. unfold _tick.
  destruct (quadcopters (fst (start_quads rnd k count st)));
    [reflexivity | discriminate Hlen].
Qed.

Lemma stop_quads_twice (st : GridCanvas) :
  stop_quads (stop_quads st) = stop_quads st.
Proof.
  destruct st as [cs w h ps rs qs timer vs pd pps n].
  unfold stop_quads; simpl. destruct timer, qs, pps; reflexivity.
Qed.

Lemma stop_quads_stopped (st : GridCanvas) : stopped (stop_quads st).
Proof.
  destruct st as [cs w h ps rs qs timer vs pd pps n].
  unfold stop_quads, stopped; simpl.
  destruct timer, qs, pps; simpl; repeat split; reflexivity.
Qed.

(** [start_quads] begins with a stop, so a stop just before it changes
    nothing; and however the simulation was started, a stop brings back a
    stopped canvas with the standard markers, rectangles and visited cells
    that were there before the start. *)
Theorem start_stop_compose (k : nat) (count : Z) (st : GridCanvas) :
  start_quads rnd k count (stop_quads st) = start_quads rnd k count st
  /\ stopped (stop_quads (fst (start_quads rnd k count st)))
  /\ pins (stop_quads (fst (start_quads rnd k count st))) = pins st
  /\ rectangles (stop_quads (fst (start_quads rnd k count st)))
     = rectangles st
  /\ visited (stop_quads (fst (start_quads rnd k count st))) = visited st.
Proof.
  split.
  - unfold start_quads. rewrite stop_quads_twice. reflexivity.
  - split; [apply stop_quads_stopped |].
    destruct (stop_quads_fields (fst (start_quads rnd k count st)))
      as (_ & _ & _ & _ & _ & Hrs & Hps & Hvs & _).
    destruct (start_quads_frame k count st)
      as (_ & _ & _ & Hps' & Hrs' & Hvs' & _).
    rewrite Hrs, Hps, Hvs. auto.
Qed.

(** The play button: checking it gives three quadcopters, a purple drone
    and a running timer; unchecking it afterwards gives a stopped canvas. *)
Theorem play_toggle_cycle (k k' : nat) (canvas : GridCanvas) :
  List.length (quadcopters (fst (_on_play_toggled rnd k true canvas)))
  = 3%nat
  /\ purple_drone (fst (_on_play_toggled rnd k true canvas)) <> None
  /\ anim_timer_active (fst (_on_play_toggled rnd k true canvas)) = true
  /\ stopped
       (fst (_on_play_toggled rnd k' false
               (fst (_on_play_toggled rnd k true canvas)))).
Proof.
  unfold _on_play_toggled. cbn [fst].
  destruct (start_quads_drone k 3 canvas) as (pd & Hpd & _).
  split; [apply (start_quads_length k 3 canvas) |].
  split; [rewrite Hpd; discriminate |].
  split; [apply (start_quads_timer k 3 canvas) | apply stop_quads_stopped].
Qed.

End StartStop.

Lemma start_without_quads_freezes_drone_witness :
  0 <= 0
  /\ purple_drone (fst (start_quads (fun _ => 0.5%Q) 0 0 (fresh_canvas 70)))
     <> None
  /\ anim_timer_active
       (fst (start_quads (fun _ => 0.5%Q) 0 0 (fresh_canvas 70))) = false.
Proof.
  split; [lia |].
  destruct (start_without_quads_freezes_drone (fun _ => 0.5%Q) 0 0
              (fresh_canvas 70)) as (Hpd & Ht & _); [lia |].
  split; [exact Hpd | exact Ht].
Defined.

(** ** Where agents start *)

Section Placement.
Local Open Scope Q_scope.

Variable rnd : nat -> Q.
Hypothesis rnd_unit : unit_draws rnd.

Lemma uniform_range (lo hi u : Q) :
  lo <= hi -> 0 <= u <= 1 -> lo <= uniform lo hi u <= hi.
Proof.
  intros Hle [Hu0 Hu1]. unfold uniform.
  assert (H0 : 0 <= (hi - lo) * u) by (apply Qmult_le_0_compat; lra).
  assert (H1 : 0 <= (hi - lo) * (1 - u)) by (apply Qmult_le_0_compat; lra).
  split; lra.
Qed.

Lemma random_velocity_sampled (u v : Q) :
  0 <= u <= 1 -> 0 <= v <= 1 ->
  sampled_velocity (mkPoint (random_velocity u) (random_velocity v)).
Proof.
  intros Hu Hv. exists (uniform (-2.2) 2.2 u), (uniform (-2.2) 2.2 v).
  split; [reflexivity |].
  split; apply uniform_range; first [assumption | lra].
Qed.

Lemma spawn_bounds_ordered (c0 c1 : Z) : spawn_lo c0 <= spawn_hi c0 c1.
Proof. unfold spawn_lo, spawn_hi. rewrite <- Zle_Qle. lia. Qed.

Lemma sampled_quad_fresh (bat_lo : Q) (a : Area) (k : nat) (sz : Q) :
  bat_lo <= 100 ->
  fresh_quad bat_lo a
    (mkQuad
       (mkPoint
          (uniform (spawn_lo (area_x0 a)) (spawn_hi (area_x0 a) (area_x1 a))
             (rnd k))
          (uniform (spawn_lo (area_y0 a)) (spawn_hi (area_y0 a) (area_y1 a))
             (rnd (S k))))
       (mkPoint (random_velocity (rnd (2 + k)%nat))
          (random_velocity (rnd (3 + k)%nat)))
       sz (uniform bat_lo 100 (rnd (4 + k)%nat))).
Proof.
  intros Hbat. unfold fresh_quad, in_spawn_range.
  cbn [pos vel battery ptx pty].
  split; [| split].
  - split; apply uniform_range;
      first [apply spawn_bounds_ordered | apply rnd_unit].
  - apply random_velocity_sampled; apply rnd_unit.
  - apply uniform_range; [exact Hbat | apply rnd_unit].
Qed.

Lemma try_place_some (n : nat) (bat_lo : Q) (a : Area)
  (rects : list QRectF) (k : nat) (sz : Q) (q : Quad) (k' : nat) :
  bat_lo <= 100 ->
  try_place n bat_lo a rects rnd k sz = (Some q, k') ->
  _bbox_intersects_rects rects (bbox_of q) = false /\ fresh_quad bat_lo a q.
Proof.
  intros Hbat. revert k. induction n as [| n IH]; intros k; simpl;
    [discriminate |].
  match goal with
  | |- (if ?c then _ else _) = _ -> _ => destruct c eqn:E
  end; [apply IH |].
  intros H. injection H as <- _.
  split; [exact E | apply sampled_quad_fresh; exact Hbat].
Qed.

(** The placement loop, in full: it gives up exactly when each of its [n]
    attempts sampled a box that meets a rectangle, and otherwise keeps the
    box of the first attempt that does not. *)
Lemma try_place_spec (n : nat) (bat_lo : Q) (a : Area)
  (rects : list QRectF) (k : nat) (sz : Q) :
  match try_place n bat_lo a rects rnd k sz with
  | (None, _) => attempts_blocked a rects rnd k sz n
  | (Some q, _) =>
      exists i : nat,
        (i < n)%nat
        /\ attempts_blocked a rects rnd k sz i
        /\ bbox_of q = sample_box a rnd (k + 2 * i) sz
  end.
Proof.
  revert k. induction n as [| n IH]; intros k.
  - simpl. intros i Hi. inversion Hi.
  - cbn [try_place].
    destruct (_bbox_intersects_rects rects
                (bbox_at
                   (uniform (spawn_lo (area_x0 a))
                      (spawn_hi (area_x0 a) (area_x1 a)) (rnd k))
                   (uniform (spawn_lo (area_y0 a))
                      (spawn_hi (area_y0 a) (area_y1 a)) (rnd (S k))) sz))
      eqn:E.
    + specialize (IH (S (S k))).
      assert (Hshift : forall i, (S (S k) + 2 * i = k + 2 * S i)%nat)
        by (intros i; lia).
      assert (Hhead : forall m,
                 attempts_blocked a rects rnd (S (S k)) sz m ->
                 attempts_blocked a rects rnd k sz (S m)).
      { intros m Hm [| i] Hi.
        - replace (k + 2 * 0)%nat with k by lia. exact E.
        - rewrite <- Hshift. apply Hm. lia. }
      destruct (try_place n bat_lo a rects rnd (S (S k)) sz) as [[q |] k'].
      * destruct IH as (i & Hi & Hbl & Hbox).
        exists (S i). split; [lia |]. split; [apply Hhead; exact Hbl |].
        rewrite <- Hshift. exact Hbox.
      * apply Hhead. exact IH.
    + exists 0%nat. split; [lia |]. split.
      * intros i Hi. inversion Hi.
      * replace (k + 2 * 0)%nat with k by lia. reflexivity.
Qed.

Lemma spawn_quad_fresh (a : Area) (rects : list QRectF) (k : nat) (cs : Z) :
  fresh_quad 60 a (fst (spawn_quad a rects rnd k cs)).
Proof.
  unfold spawn_quad.
  destruct (try_place 40 60 a rects rnd k (inject_Z cs * 0.9)) as [[q |] k']
    eqn:E; simpl.
  - apply (try_place_some _ _ _ _ _ _ _ _ (Qle_bool_imp_le 60 100 eq_refl) E).
  - apply sampled_quad_fresh. lra.
Qed.

Lemma spawn_quads_fresh (n : nat) (a : Area) (rects : list QRectF)
  (k : nat) (cs : Z) :
  Forall (fresh_quad 60 a) (fst (spawn_quads n a rects rnd k cs)).
Proof.
  revert k. induction n as [| n IH]; intros k; simpl; [constructor |].
  pose proof (spawn_quad_fresh a rects k cs) as Hq.
  destruct (spawn_quad a rects rnd k cs) as [q k1].
  specialize (IH k1).
  destruct (spawn_quads n a rects rnd k1 cs) as [rest k2].
  constructor; assumption.
Qed.

(** With draws in the unit interval, every quadcopter starts at a position
    between [area + 10] and [max(area + 11, area_end - 10)] on each axis,
    with velocity components that are each 1.3 times a number between -2.2
    and 2.2, and a battery between 60 and 100, whether it was placed by one
    of its 40 attempts or by the fallback. *)
Theorem start_quads_fresh (k : nat) (count : Z) (st : GridCanvas) :
  Forall (fresh_quad 60 (play_area st))
    (quadcopters (fst (start_quads rnd k count st)))
  /\ List.length (quadcopters (fst (start_quads rnd k count st)))
     = Z.to_nat (Z.max 0 count).
Proof.
  destruct (start_quads_agents rnd k count st) as (k1 & Hqs & _).
  split.
  - rewrite Hqs. apply spawn_quads_fresh.
  - apply start_quads_length.
Qed.

(** With draws in the unit interval, and [k1] the number of draws used by
    the quadcopters placed before it: either one of the 60 attempts of the
    purple drone, the first whose sampled box meets no rectangle, placed
    it, so that it starts on that box, clear of every rectangle, in the
    sampling range, with a sampled velocity and a battery between 80 and
    100; or all 60 sampled boxes met a rectangle and it starts at the fixed
    fallback: 20 past the corner of the playable area, velocity
    (1.3, -1.3), battery 90. *)
Theorem start_purple_clear_or_fallback (k : nat) (count : Z)
  (st : GridCanvas) :
  let a := play_area st in
  let sz := inject_Z (cell_size st) * 0.9 in
  let k1 :=
    snd (spawn_quads (Z.to_nat (Z.max 0 count)) a (rectangles st) rnd k
           (cell_size st)) in
  exists pd,
    purple_drone (fst (start_quads rnd k count st)) = Some pd
    /\ ((exists i : nat,
            (i < 60)%nat
            /\ attempts_blocked a (rectangles st) rnd k1 sz i
            /\ bbox_of pd = sample_box a rnd (k1 + 2 * i) sz
            /\ _bbox_intersects_rects (rectangles st) (bbox_of pd) = false
            /\ fresh_quad 80 a pd)
        \/ (pd = purple_fallback a (cell_size st)
            /\ attempts_blocked a (rectangles st) rnd k1 sz 60)).
Proof.
  intros a sz k1.
  eexists. split; [apply start_quads_drone_at |].
  fold a k1. unfold spawn_purple.
  pose proof (try_place_spec 60 80 a (rectangles st) k1 sz) as Hspec.
  fold sz.
  destruct (try_place 60 80 a (rectangles st) rnd k1 sz) as [[pd |] k2] eqn:E;
    cbn [fst].
  - left. destruct Hspec as (i & Hi & Hbl & Hbox).
    exists i. split; [exact Hi |]. split; [exact Hbl |].
    split; [exact Hbox |].
    apply (try_place_some _ _ _ _ _ _ _ _ (Qle_bool_imp_le 80 100 eq_refl) E).
  - right. split; [reflexivity | exact Hspec].
Qed.

End Placement.

Lemma start_quads_fresh_witness :
  Forall (fresh_quad 60 (play_area (fresh_canvas 70)))
    (quadcopters (fst (start_quads (fun _ => 0.5%Q) 0 3 (fresh_canvas 70))))
  /\ List.length
       (quadcopters (fst (start_quads (fun _ => 0.5%Q) 0 3 (fresh_canvas 70))))
     = 3%nat.
Proof.
  apply (start_quads_fresh (fun _ => 0.5%Q)).
  intros n. split; vm_compute; intros H; discriminate H.
Defined.

(** A rectangle over the whole canvas: all 60 attempts fail. *)
Lemma start_purple_clear_or_fallback_witness :
  let st := set_rectangles (fresh_canvas 70) [mkRect 0 0 1000 1000] in
  let rnd := fun _ : nat => 0.5%Q in
  let a := play_area st in
  let sz := (inject_Z (cell_size st) * 0.9)%Q in
  let k1 :=
    snd (spawn_quads (Z.to_nat (Z.max 0 3)) a (rectangles st) rnd 0
           (cell_size st)) in
  exists pd,
    purple_drone (fst (start_quads rnd 0 3 st)) = Some pd
    /\ ((exists i : nat,
            (i < 60)%nat
            /\ attempts_blocked a (rectangles st) rnd k1 sz i
            /\ bbox_of pd = sample_box a rnd (k1 + 2 * i) sz
            /\ _bbox_intersects_rects (rectangles st) (bbox_of pd) = false
            /\ fresh_quad 80 a pd)
        \/ (pd = purple_fallback a (cell_size st)
            /\ attempts_blocked a (rectangles st) rnd k1 sz 60)).
Proof.
  assert (Hu : unit_draws (fun _ => 0.5%Q))
    by (intros n; split; vm_compute; intros H; discriminate H).
  exact (start_purple_clear_or_fallback (fun _ => 0.5%Q) Hu 0 3
           (set_rectangles (fresh_canvas 70) [mkRect 0 0 1000 1000])).
Defined.

(** ** What a tick keeps *)

Section TickFrame.
Local Open Scope Q_scope.

Variable rnd : nat -> Q.

(** The state after a tick that found a quadcopter, field by field. *)
Lemma tick_result (k : nat) (st : GridCanvas) :
  quadcopters st <> [] ->
  let a := play_area st in
  let w := Z.max 1 (width st) in
  let h := Z.max 1 (height st) in
  let qs := fst (tick_quads a (rectangles st) rnd k (quadcopters st)) in
  let k1 := snd (tick_quads a (rectangles st) rnd k (quadcopters st)) in
  let pd' :=
    option_map (fun pd => fst (tick_purple a (rectangles st) rnd k1 pd))
      (purple_drone st) in
  let seen := mark_all (cell_size st) w h qs (visited st) in
  fst (_tick rnd k st) =
  mkCanvas (cell_size st) (width st) (height st) (pins st) (rectangles st)
    qs (anim_timer_active st)
    match pd' with
    | None => seen
    | Some pd => mark_all (cell_size st) w h [pd] seen
    end
    pd' (purple_pins st) (S (updates st)).
Proof.
  intros Hne. cbv zeta. unfold _tick, mark_all.
  destruct (quadcopters st) as [| q0 qs0] eqn:Hq; [congruence |].
  destruct (tick_quads (play_area st) (rectangles st) rnd k (q0 :: qs0))
    as [qs k1].
  cbn [purple_drone set_visited update set_quadcopters rectangles fst snd].
  destruct (purple_drone st) as [pd |] eqn:Hpd.
  - cbn [option_map].
    destruct (tick_purple (play_area st) (rectangles st) rnd k1 pd)
      as [pd' k2].
    cbn [fst set_purple_drone set_visited visited update set_quadcopters
         cell_size width height pins rectangles quadcopters
         anim_timer_active purple_drone purple_pins updates fold_left].
    reflexivity.
  - cbn [option_map fst].
    destruct st as [cs w h ps rs qs1 timer vs pd pps n]; simpl in *.
    subst pd. reflexivity.
Qed.

Lemma tick_quads_length (a : Area) (rects : list QRectF) (k : nat)
  (qs : list Quad) :
  List.length (fst (tick_quads a rects rnd k qs)) = List.length qs.
Proof.
  revert k. induction qs as [| q qs IH]; intros k; simpl; [reflexivity |].
  destruct (tick_quad a rects rnd k q) as [q' k1].
  specialize (IH k1).
  destruct (tick_quads a rects rnd k1 qs) as [qs' k2].
  simpl in *. lia.
Qed.

(** A tick moves agents and marks cells, nothing else: markers of both
    categories, rectangles, geometry and timer are as before, there are as
    many quadcopters as before, a purple drone exactly if there was one,
    and one repaint is requested when there is a quadcopter, none
    otherwise. *)
Theorem tick_frame (k : nat) (st : GridCanvas) :
  pins (fst (_tick rnd k st)) = pins st
  /\ purple_pins (fst (_tick rnd k st)) = purple_pins st
  /\ rectangles (fst (_tick rnd k st)) = rectangles st
  /\ (cell_size (fst (_tick rnd k st)), width (fst (_tick rnd k st)),
      height (fst (_tick rnd k st)))
     = (cell_size st, width st, height st)
  /\ anim_timer_active (fst (_tick rnd k st)) = anim_timer_active st
  /\ List.length (quadcopters (fst (_tick rnd k st)))
     = List.length (quadcopters st)
  /\ (purple_drone (fst (_tick rnd k st)) = None <-> purple_drone st = None)
  /\ updates (fst (_tick rnd k st))
     = match quadcopters st with
       | [] => updates st
       | _ :: _ => S (updates st)
       end.
Proof.
  destruct (quadcopters st) as [| q0 qs0] eqn:Hq.
  - unfold _tick. rewrite Hq. simpl. rewrite Hq. tauto.
  - assert (Hne : quadcopters st <> []) by (rewrite Hq; discriminate).
    rewrite (tick_result k st Hne). cbn [pins purple_pins rectangles
      cell_size width height anim_timer_active quadcopters purple_drone
      updates].
    rewrite tick_quads_length, Hq.
    repeat split; try reflexivity.
    + destruct (purple_drone st); simpl; [discriminate | reflexivity].
    + intros ->. reflexivity.
Qed.

End TickFrame.

(** ** Visited cells *)

Section Visited.

Lemma cell_eqb_eq (c c' : Z * Z) : cell_eqb c c' = true <-> c = c'.
Proof.
  destruct c as [r col], c' as [r' col']. unfold cell_eqb; simpl.
  rewrite andb_true_iff, !Z.eqb_eq. split.
  - intros [-> ->]. reflexivity.
  - intros H. injection H as -> ->. auto.
Qed.

Lemma visited_add_in (c c' : Z * Z) (v : list (Z * Z)) :
  In c' (visited_add c v) <-> c' = c \/ In c' v.
Proof.
  unfold visited_add. destruct (existsb (cell_eqb c) v) eqn:E.
  - split; [auto |]. intros [-> | H]; [| exact H].
    apply existsb_exists in E. destruct E as (x & Hx & Hc).
    apply cell_eqb_eq in Hc. subst x. exact Hx.
  - simpl. split; intros [H | H]; auto.
Qed.

Lemma visited_add_nodup (c : Z * Z) (v : list (Z * Z)) :
  NoDup v -> NoDup (visited_add c v).
Proof.
  intros Hv. unfold visited_add. destruct (existsb (cell_eqb c) v) eqn:E.
  - exact Hv.
  - constructor; [| exact Hv]. intros Hin.
    assert (existsb (cell_eqb c) v = true); [| congruence].
    apply existsb_exists. exists c. split; [exact Hin |].
    apply cell_eqb_eq. reflexivity.
Qed.

Lemma under_agent_weaken (cs w h : Z) (l1 l2 : list Quad) (c : Z * Z) :
  (forall q, In q l1 -> In q l2) ->
  under_agent cs w h l1 c -> under_agent cs w h l2 c.
Proof.
  intros Hsub [Hin (q & Hq & Hc)]. split; [exact Hin |]. exists q. auto.
Qed.

Lemma mark_visited_returned (cs w h : Z) (q : Quad) (v v' : list (Z * Z)) :
  mark_visited cs w h (pos q) (Returned v) = Returned v' ->
  (NoDup v -> NoDup v')
  /\ (forall c, In c v -> In c v')
  /\ (forall c, In c v' -> In c v \/ under_agent cs w h [q] c).
Proof.
  unfold mark_visited, under_agent. simpl.
  destruct (cell_of cs (pos q)) as [cell | e] eqn:Hcell; simpl;
    [| discriminate].
  intros H. injection H as <-.
  destruct (in_content cs w h cell) eqn:Hin.
  - split; [apply visited_add_nodup |]. split.
    + intros c Hc. apply visited_add_in. auto.
    + intros c Hc. apply visited_add_in in Hc.
      destruct Hc as [-> | Hc]; [right | left; exact Hc].
      split; [exact Hin |]. exists q. split; [left; reflexivity | exact Hcell].
  - split; [trivial |]. split; auto.
Qed.

Lemma fold_mark_raised (cs w h : Z) (qs : list Quad) (e : exn) :
  fold_left (fun seen q => mark_visited cs w h (pos q) seen) qs (Raised e)
  = Raised e.
Proof.
  induction qs as [| q qs IH]; cbn [fold_left]; [reflexivity | exact IH].
Qed.

Lemma fold_mark_returned (cs w h : Z) (qs : list Quad) :
  forall v r,
    fold_left (fun seen q => mark_visited cs w h (pos q) seen) qs (Returned v)
    = Returned r ->
    (NoDup v -> NoDup r)
    /\ (forall c, In c v -> In c r)
    /\ (forall c, In c r -> In c v \/ under_agent cs w h qs c).
Proof.
  induction qs as [| q qs IH]; intros v r; cbn [fold_left].
  - intros H. injection H as <-. auto.
  - destruct (mark_visited cs w h (pos q) (Returned v)) as [v1 | e] eqn:E;
      [| rewrite fold_mark_raised; discriminate].
    intros Hfold.
    destruct (mark_visited_returned cs w h q v v1 E) as (Hnd1 & Hin1 & Hnew1).
    destruct (IH v1 r Hfold) as (Hnd & Hin & Hnew).
    split; [auto |]. split; [auto |].
    intros c Hc. destruct (Hnew c Hc) as [Hc1 | Hc1].
    + destruct (Hnew1 c Hc1) as [Hc0 | Hc0]; [left; exact Hc0 | right].
      apply (under_agent_weaken cs w h [q]); [| exact Hc0].
      intros q' [<- | []]. left. reflexivity.
    + right. apply (under_agent_weaken cs w h qs); [| exact Hc1].
      intros q' Hq'. right. exact Hq'.
Qed.

Lemma mark_all_spec (cs w h : Z) (qs : list Quad) (v : list (Z * Z)) :
  (NoDup v -> NoDup (mark_all cs w h qs v))
  /\ (forall c, In c v -> In c (mark_all cs w h qs v))
  /\ (forall c, In c (mark_all cs w h qs v) ->
                In c v \/ under_agent cs w h qs c).
Proof.
  unfold mark_all.
  destruct (fold_left (fun seen q => mark_visited cs w h (pos q) seen) qs
              (Returned v)) as [r | e] eqn:E; simpl.
  - exact (fold_mark_returned cs w h qs v r E).
  - auto.
Qed.

(** The visited set only grows in a tick, it stays free of duplicates, and
    every cell a tick adds is a content cell (row and column at least 1,
    inside the grid) under the position an agent has after the tick. *)
Theorem tick_visited (rnd : nat -> Q) (k : nat) (st : GridCanvas) :
  (forall c, In c (visited st) -> In c (visited (fst (_tick rnd k st))))
  /\ (NoDup (visited st) -> NoDup (visited (fst (_tick rnd k st))))
  /\ (forall c,
         In c (visited (fst (_tick rnd k st))) ->
         In c (visited st)
         \/ (in_content (cell_size st) (Z.max 1 (width st))
               (Z.max 1 (height st)) c = true
             /\ exists q,
                  (In q (quadcopters (fst (_tick rnd k st)))
                   \/ purple_drone (fst (_tick rnd k st)) = Some q)
                  /\ cell_of (cell_size st) (pos q) = Returned c)).
Proof.
  destruct (quadcopters st) as [| q0 qs0] eqn:Hq.
  - unfold _tick. rewrite Hq. simpl. auto.
  - assert (Hne : quadcopters st <> []) by (rewrite Hq; discriminate).
    rewrite (tick_result rnd k st Hne).
    cbn [visited quadcopters purple_drone].
    set (qs := fst (tick_quads (play_area st) (rectangles st) rnd k
                      (quadcopters st))).
    set (seen := mark_all (cell_size st) (Z.max 1 (width st))
                   (Z.max 1 (height st)) qs (visited st)).
    destruct (mark_all_spec (cell_size st) (Z.max 1 (width st))
                (Z.max 1 (height st)) qs (visited st))
      as (Hnd & Hin & Hnew).
    fold seen in Hnd, Hin, Hnew.
    destruct (option_map _ (purple_drone st)) as [pd |].
    + destruct (mark_all_spec (cell_size st) (Z.max 1 (width st))
                  (Z.max 1 (height st)) [pd] seen)
        as (Hnd' & Hin' & Hnew').
      split; [auto |]. split; [auto |].
      intros c Hc. destruct (Hnew' c Hc) as [Hc1 | [Hcontent (q & Hq' & Hcell)]].
      * destruct (Hnew c Hc1) as [Hc0 | [Hcontent (q & Hq' & Hcell)]];
          [left; exact Hc0 | right].
        split; [exact Hcontent |]. exists q. auto.
      * right. split; [exact Hcontent |]. exists q.
        destruct Hq' as [<- | []]. auto.
    + split; [auto |]. split; [auto |].
      intros c Hc.
      destruct (Hnew c Hc) as [Hc0 | [Hcontent (q & Hq' & Hcell)]];
        [left; exact Hc0 | right].
      split; [exact Hcontent |]. exists q. auto.
Qed.

End Visited.

(** One quadcopter in the third column and second row; cell (5, 5) was
    visited before. *)
Lemma tick_visited_witness :
  let st :=
    set_visited
      (set_quadcopters (fresh_canvas 70) [quad_at 200 150 1 1 63])
      [(5, 5)] in
  In (5, 5) (visited (fst (_tick (fun _ => 0.5%Q) 0 st)))
  /\ NoDup (visited (fst (_tick (fun _ => 0.5%Q) 0 st))).
Proof.
  intros st.
  destruct (tick_visited (fun _ => 0.5%Q) 0 st) as (Hkeep & Hnodup & _).
  split.
  - apply Hkeep. left. reflexivity.
  - apply Hnodup. constructor; [intros [] | constructor].
Defined.

(** ** What a tick does to one agent *)

Section TickAgent.
Local Open Scope Q_scope.

Variable a : Area.
Variable rects : list QRectF.
Variable rnd : nat -> Q.

Lemma same_body_trans (q1 q2 q3 : Quad) :
  same_body q1 q2 -> same_body q2 q3 -> same_body q1 q3.
Proof. unfold same_body. intros [-> ->] [-> ->]. auto. Qed.

Lemma move_same_body (q : Quad) :
  same_body q (move_y rects (move_x rects q)).
Proof.
  unfold same_body, move_y, move_x.
  destruct (_bbox_intersects_rects rects
              (bbox_at (ptx (pos q) + ptx (vel q)) (pty (pos q)) (size q)));
    simpl;
    match goal with
    | |- context [if ?c then _ else _] => destruct c
    end; auto.
Qed.

Lemma nudge_same_body (n : nat) (q : Quad) :
  same_body q (fst (nudge rects n q)).
Proof.
  revert q. induction n as [| n IH]; intros q; simpl; [split; reflexivity |].
  destruct (_bbox_intersects_rects rects _); [| split; reflexivity].
  eapply same_body_trans; [| apply IH]. split; reflexivity.
Qed.

Lemma recover_same_body (k : nat) (q : Quad) :
  same_body q (fst (recover rects rnd k q)).
Proof.
  unfold recover.
  destruct (_bbox_intersects_rects rects (bbox_of q)); [| split; reflexivity].
  pose proof (nudge_same_body 6 q) as Hn.
  destruct (nudge rects 6 q) as [q' nudged].
  destruct nudged; simpl in *; exact Hn.
Qed.

Lemma clamp_left_body (bounce : Q -> Q -> Q) (qk : Quad * nat) :
  same_body (fst qk) (fst (clamp_left bounce a rnd qk)).
Proof.
  destruct qk as [q k]. unfold clamp_left, same_body.
  destruct (Qltb _ _); split; reflexivity.
Qed.

Lemma clamp_right_body (bounce : Q -> Q -> Q) (qk : Quad * nat) :
  same_body (fst qk) (fst (clamp_right bounce a rnd qk)).
Proof.
  destruct qk as [q k]. unfold clamp_right, same_body.
  destruct (Qltb _ _); split; reflexivity.
Qed.

Lemma clamp_top_body (bounce : Q -> Q -> Q) (qk : Quad * nat) :
  same_body (fst qk) (fst (clamp_top bounce a rnd qk)).
Proof.
  destruct qk as [q k]. unfold clamp_top, same_body.
  destruct (Qltb _ _); split; reflexivity.
Qed.

Lemma clamp_bottom_body (bounce : Q -> Q -> Q) (qk : Quad * nat) :
  same_body (fst qk) (fst (clamp_bottom bounce a rnd qk)).
Proof.
  destruct qk as [q k]. unfold clamp_bottom, same_body.
  destruct (Qltb _ _); split; reflexivity.
Qed.

Lemma clamps_xy_body (bounce : Q -> Q -> Q) (qk : Quad * nat) :
  same_body (fst qk)
    (fst (clamp_top bounce a rnd
            (clamp_right bounce a rnd (clamp_left bounce a rnd qk)))).
Proof.
  eapply same_body_trans; [apply clamp_left_body |].
  eapply same_body_trans; [apply clamp_right_body |].
  apply clamp_top_body.
Qed.

Lemma drain_drained (amount : Q) (q0 : Quad) (qk : Quad * nat) :
  0 <= amount ->
  same_body q0 (fst qk) ->
  drained amount q0 (fst (drain amount qk)).
Proof.
  intros Ham [Hsize Hbat]. destruct qk as [q k]. unfold drain, drained.
  simpl in *. rewrite Hbat. split; [exact Hsize |].
  destruct (Q.max_spec 0 (battery q0 - amount)) as [[Hlt Hmax] | [Hle Hmax]];
    rewrite Hmax; repeat split; intros; lra.
Qed.

Lemma drained_same_body (amount : Q) (q0 q1 q2 : Quad) :
  drained amount q0 q1 -> same_body q1 q2 -> drained amount q0 q2.
Proof.
  unfold drained, same_body. intros (Hs & H0 & H1 & H2) [-> ->].
  repeat split; assumption.
Qed.

Lemma tick_quad_drained (k : nat) (q : Quad) :
  drained 0.02 q (fst (tick_quad a rects rnd k q)).
Proof.
  unfold tick_quad.
  eapply drained_same_body; [| apply clamp_bottom_body].
  apply drain_drained; [lra |].
  eapply same_body_trans; [apply move_same_body |].
  eapply same_body_trans; [apply (recover_same_body k) |].
  apply clamps_xy_body.
Qed.

Lemma tick_purple_drained (k : nat) (pd : Quad) :
  drained 0.03 pd (fst (tick_purple a rects rnd k pd)).
Proof.
  unfold tick_purple.
  apply drain_drained; [lra |].
  eapply same_body_trans; [apply move_same_body |].
  eapply same_body_trans;
    [apply (clamps_xy_body rebound_purple (move_y rects (move_x rects pd), k)) |].
  apply clamp_bottom_body.
Qed.

Lemma tick_quads_drained (k : nat) (qs : list Quad) :
  Forall2 (drained 0.02) qs (fst (tick_quads a rects rnd k qs)).
Proof.
  revert k. induction qs as [| q qs IH]; intros k; simpl; [constructor |].
  pose proof (tick_quad_drained k q) as Hq.
  destruct (tick_quad a rects rnd k q) as [q' k1].
  specialize (IH k1).
  destruct (tick_quads a rects rnd k1 qs) as [qs' k2].
  constructor; assumption.
Qed.

End TickAgent.

(** In a tick that found a quadcopter every agent keeps its size; the
    battery of a quadcopter loses 0.02 and that of the purple drone 0.03,
    stopping at 0: it is never negative afterwards and never rises. *)
Theorem tick_drains_batteries (rnd : nat -> Q) (k : nat) (st : GridCanvas) :
  quadcopters st <> [] ->
  Forall2 (drained 0.02) (quadcopters st)
    (quadcopters (fst (_tick rnd k st)))
  /\ (forall pd,
         purple_drone st = Some pd ->
         exists pd',
           purple_drone (fst (_tick rnd k st)) = Some pd'
           /\ drained 0.03 pd pd').
Proof.
  intros Hne. rewrite (tick_result rnd k st Hne).
  cbn [quadcopters purple_drone]. split.
  - apply tick_quads_drained.
  - intros pd ->. cbn [option_map]. eexists. split; [reflexivity |].
    apply tick_purple_drained.
Qed.

(** A quadcopter with a nearly empty battery and a purple drone. *)
Lemma tick_drains_batteries_witness :
  let st :=
    set_purple_drone
      (set_quadcopters (fresh_canvas 70)
         [mkQuad (mkPoint 200 150) (mkPoint 1 1) 63 0.01])
      (Some (quad_at 250 150 1 1 63)) in
  Forall2 (drained 0.02) (quadcopters st)
    (quadcopters (fst (_tick (fun _ => 0.5%Q) 0 st)))
  /\ (forall pd,
         purple_drone st = Some pd ->
         exists pd',
           purple_drone (fst (_tick (fun _ => 0.5%Q) 0 st)) = Some pd'
           /\ drained 0.03 pd pd').
Proof.
  intros st. apply (tick_drains_batteries (fun _ => 0.5%Q) 0 st).
  discriminate.
Defined.

(** ** Bouncing off the edges *)

Section Bounces.
Local Open Scope Q_scope.

Variable a : Area.
Variable rects : list QRectF.
Variable rnd : nat -> Q.

Lemma rebound_floor (v u : Q) : 0.15 <= Qabs (rebound v u).
Proof.
  unfold rebound.
  destruct (Qltb (Qabs (- v + uniform (-0.6) 0.6 u)) 0.15) eqn:E.
  - destruct (Qle_bool 0 (- v + uniform (-0.6) 0.6 u));
      vm_compute; intros H; discriminate H.
  - apply Qltb_false in E. exact E.
Qed.

(** The X velocity after the two X bounds tests is a rebound when one of
    them fired. *)
Lemma clamps_x_rebound (q : Quad) (k : nat) :
  hits_x a q = true ->
  exists v u,
    ptx (vel (fst (clamp_right rebound a rnd (clamp_left rebound a rnd (q, k)))))
    = rebound v u.
Proof.
  unfold hits_x, clamp_left. intros H.
  destruct (Qltb (ptx (pos q) - size q / 2) (inject_Z (area_x0 a))) eqn:El;
    unfold clamp_right; cbn [pos size vel set_pos_x set_vel_x ptx pty];
    match goal with
    | |- context [if ?c then _ else _] => destruct c eqn:Er
    end; cbn [fst vel set_vel_x set_pos_x ptx]; try (eexists; eexists; reflexivity).
  simpl in H. congruence.
Qed.

Lemma clamps_y_rebound (q : Quad) (k : nat) (amount : Q) :
  hits_y a q = true ->
  exists v u,
    pty (vel (fst (clamp_bottom rebound a rnd
                     (drain amount (clamp_top rebound a rnd (q, k))))))
    = rebound v u.
Proof.
  unfold hits_y, clamp_top. intros H.
  destruct (Qltb (pty (pos q) - size q / 2) (inject_Z (area_y0 a))) eqn:Et;
    unfold drain, clamp_bottom;
    cbn [pos size vel set_pos_y set_vel_y set_battery ptx pty];
    match goal with
    | |- context [if ?c then _ else _] => destruct c eqn:Eb
    end; cbn [fst vel set_vel_y set_pos_y set_battery pty];
    try (eexists; eexists; reflexivity).
  simpl in H. congruence.
Qed.

(** What the X bounds tests leave alone, and what the Y ones do. *)
Lemma clamps_x_keep_y (bounce : Q -> Q -> Q) (qk : Quad * nat) :
  let q' := fst (clamp_right bounce a rnd (clamp_left bounce a rnd qk)) in
  pty (pos q') = pty (pos (fst qk)) /\ size q' = size (fst qk)
  /\ pty (vel q') = pty (vel (fst qk)).
Proof.
  destruct qk as [q k]. unfold clamp_left.
  destruct (Qltb _ _); unfold clamp_right;
    match goal with
    | |- context [if ?c then _ else _] => destruct c
    end; repeat split; reflexivity.
Qed.

Lemma clamps_y_keep_x (bounce : Q -> Q -> Q) (amount : Q) (qk : Quad * nat) :
  ptx (vel (fst (clamp_bottom bounce a rnd
                   (drain amount (clamp_top bounce a rnd qk)))))
  = ptx (vel (fst qk)).
Proof.
  destruct qk as [q k]. unfold clamp_top.
  destruct (Qltb _ _); unfold drain, clamp_bottom;
    match goal with
    | |- context [if ?c then _ else _] => destruct c
    end; reflexivity.
Qed.

(** A quadcopter that a tick finds across an edge of the playable area
    leaves the tick with a velocity component of magnitude at least 0.15 on
    that axis: it cannot come to rest against a wall. *)
Theorem wall_bounce_keeps_speed (k : nat) (q : Quad) :
  (hits_x a (before_bounds_quad rects rnd k q) = true ->
   0.15 <= Qabs (ptx (vel (fst (tick_quad a rects rnd k q)))))
  /\ (hits_y a (before_bounds_quad rects rnd k q) = true ->
      0.15 <= Qabs (pty (vel (fst (tick_quad a rects rnd k q))))).
Proof.
  unfold tick_quad, before_bounds_quad.
  destruct (recover rects rnd k (move_y rects (move_x rects q))) as [q1 k1].
  cbn [fst]. split; intros Hhit.
  - rewrite clamps_y_keep_x.
    destruct (clamps_x_rebound q1 k1 Hhit) as (v & u & ->).
    apply rebound_floor.
  - destruct (clamps_x_keep_y rebound (q1, k1)) as (Hy & Hsz & _).
    destruct (clamp_right rebound a rnd (clamp_left rebound a rnd (q1, k1)))
      as [q2 k2] eqn:E2.
    cbn [fst] in Hy, Hsz.
    assert (Hhit2 : hits_y a q2 = true).
    { unfold hits_y in *. rewrite Hy, Hsz. exact Hhit. }
    destruct (clamps_y_rebound q2 k2 0.02 Hhit2) as (v & u & ->).
    apply rebound_floor.
Qed.

(** With a draw in the unit interval, the rebound of a velocity component
    larger than 0.6 in magnitude points the other way. *)
Theorem rebound_reverses (v u : Q) :
  0 <= u <= 1 ->
  (0.6 < v -> rebound v u <= -0.15)
  /\ (v < -0.6 -> 0.15 <= rebound v u).
Proof.
  intros [Hu0 Hu1]. unfold rebound, uniform.
  set (new_v := - v + (-0.6 + (0.6 - -0.6) * u)).
  assert (Hlo : - v - 0.6 <= new_v) by (unfold new_v; lra).
  assert (Hhi : new_v <= - v + 0.6) by (unfold new_v; lra).
  split; intros Hv.
  - assert (Hneg : new_v < 0) by lra.
    destruct (Qltb (Qabs new_v) 0.15) eqn:E.
    + destruct (Qle_bool 0 new_v) eqn:E0; [test_facts; lra |].
      vm_compute. intros H. discriminate H.
    + apply Qltb_false in E. rewrite Qabs_neg in E by lra. lra.
  - assert (Hpos : 0 < new_v) by lra.
    destruct (Qltb (Qabs new_v) 0.15) eqn:E.
    + destruct (Qle_bool 0 new_v) eqn:E0; [| test_facts; lra].
      vm_compute. intros H. discriminate H.
    + apply Qltb_false in E. rewrite Qabs_pos in E by lra. exact E.
Qed.

End Bounces.

(** A quadcopter flying out through the left edge at speed 3. *)
Lemma wall_bounce_keeps_speed_witness :
  let q := quad_at 100 150 (-3) 0 63 in
  let area := play_area (fresh_canvas 70) in
  hits_x area (before_bounds_quad [] (fun _ => 0.5%Q) 0 q) = true
  /\ (0.15 <= Qabs (ptx (vel (fst (tick_quad area [] (fun _ => 0.5%Q) 0 q)))))%Q.
Proof.
  intros q area. split; [reflexivity |].
  apply (proj1 (wall_bounce_keeps_speed area [] (fun _ => 0.5%Q) 0 q)).
  reflexivity.
Defined.

Lemma rebound_reverses_witness :
  (rebound 3 0.5 <= -0.15)%Q /\ (0.15 <= rebound (-3) 0.5)%Q.
Proof.
  assert (Hu : (0 <= 0.5 <= 1)%Q)
    by (split; vm_compute; intros H; discriminate H).
  destruct (rebound_reverses 3 0.5 Hu) as [Hpos _].
  destruct (rebound_reverses (-3) 0.5 Hu) as [_ Hneg].
  split.
  - apply Hpos. vm_compute. reflexivity.
  - apply Hneg. vm_compute. reflexivity.
Defined.

(** ** Staying out of the zones *)

Section Clearance.
Local Open Scope Q_scope.

Variable a : Area.
Variable rects : list QRectF.
Variable rnd : nat -> Q.



Lemma moves_keep_clear (q : Quad) :
  _bbox_intersects_rects rects (bbox_of q) = false ->
  _bbox_intersects_rects rects (bbox_of (move_y rects (move_x rects q)))
  = false.
Proof.
  intros Hstart. apply not_true_is_false. intros Hover.
  destruct (recovery_needs_overlap rects q Hover) as (_ & _ & Hq).
  congruence.
Qed.

(** An agent, quadcopter or purple drone, whose box meets no zone before a
    tick meets none after it, unless a bounds test moved it: its own moves
    never take it into a zone. *)
Theorem tick_keeps_clear (k : nat) (q : Quad) :
  _bbox_intersects_rects rects (bbox_of q) = false ->
  (clamp_fires a (before_bounds_quad rects rnd k q) = false ->
   _bbox_intersects_rects rects (bbox_of (fst (tick_quad a rects rnd k q)))
   = false)
  /\ (clamp_fires a (before_bounds_purple rects q) = false ->
      _bbox_intersects_rects rects
        (bbox_of (fst (tick_purple a rects rnd k q))) = false).
Proof.
  intros Hstart. pose proof (moves_keep_clear q Hstart) as Hmoved.
  split; intros Hclamp.
  - unfold before_bounds_quad in Hclamp.
    rewrite (recover_idle rects rnd k _ Hmoved) in Hclamp.
    cbn [fst] in Hclamp.
    rewrite (tick_quad_idle a rects rnd k q Hmoved Hclamp).
    exact Hmoved.
  - rewrite (tick_purple_idle a rects rnd k q Hclamp). exact Hmoved.
Qed.

End Clearance.

(** An agent flying towards a zone on its right. *)
Lemma tick_keeps_clear_witness :
  let q := quad_at 200 150 1 1 63 in
  let zone := [mkRect 232 100 50 100] in
  let area := play_area (fresh_canvas 70) in
  _bbox_intersects_rects zone
    (bbox_of (fst (tick_quad area zone (fun _ => 0.5%Q) 0 q))) = false
  /\ _bbox_intersects_rects zone
       (bbox_of (fst (tick_purple area zone (fun _ => 0.5%Q) 0 q))) = false.
Proof.
  intros q zone area.
  destruct (tick_keeps_clear area zone (fun _ => 0.5%Q) 0 q eq_refl)
    as [Hquad Hpurple].
  split; [apply Hquad | apply Hpurple]; reflexivity.
Defined.

(** ** Markers stay unique *)

Section UniqueMarkers.

Lemma key_eqb_eq (k1 k2 : PinKey) : key_eqb k1 k2 = true <-> k1 = k2.
Proof.
  destruct k1 as [r1 c1], k2 as [r2 c2]. unfold key_eqb; simpl.
  rewrite andb_true_iff, String.eqb_eq, Z.eqb_eq. split.
  - intros [-> ->]. reflexivity.
  - intros H. injection H as -> ->. auto.
Qed.

Lemma key_in_false (key : PinKey) (l : list PinKey) :
  key_in key l = false -> ~ In key l.
Proof.
  unfold key_in. intros H Hin.
  assert (existsb (key_eqb key) l = true); [| congruence].
  apply existsb_exists. exists key. split; [exact Hin |].
  apply key_eqb_eq. reflexivity.
Qed.

Lemma nodup_snoc {A : Type} (l : list A) (x : A) :
  NoDup l -> ~ In x l -> NoDup (l ++ [x]).
Proof.
  induction 1 as [| y l Hy Hl IH]; intros Hx; simpl.
  - constructor; [intros [] | constructor].
  - constructor.
    + intros Hin. apply in_app_or in Hin. destruct Hin as [Hin | [-> | []]].
      * contradiction.
      * apply Hx. left. reflexivity.
    + apply IH. intros Hin. apply Hx. right. exact Hin.
Qed.

Lemma insert_if_absent_nodup (key : PinKey) (l : list PinKey) :
  NoDup l -> NoDup (if key_in key l then l else l ++ [key]).
Proof.
  intros Hl. destruct (key_in key l) eqn:E; [exact Hl |].
  apply nodup_snoc; [exact Hl | apply key_in_false; exact E].
Qed.

Lemma place_purple_pindrop_unique (st : GridCanvas) :
  markers_unique st -> markers_unique (place_purple_pindrop st).
Proof.
  intros [Hp Hpp]. rewrite place_purple_pindrop_by_key.
  destruct (drone_key st) as [key |]; [| split; assumption].
  pose proof (insert_if_absent_nodup key (purple_pins st) Hpp) as H.
  destruct (key_in key (purple_pins st)); split; assumption.
Qed.

(** No operation on the canvas ever puts two markers of one category on
    the same cell: adding a pin, dropping a purple pin, a line from the
    serial port, stopping, starting, clearing the rectangles and a tick all
    keep the markers of each category pairwise distinct. *)
Theorem markers_stay_unique (st : GridCanvas) :
  markers_unique st ->
  (forall row_letter col_num, markers_unique (add_pin row_letter col_num st))
  /\ markers_unique (place_purple_pindrop st)
  /\ (forall text, markers_unique (serial_line text st))
  /\ markers_unique (stop_quads st)
  /\ markers_unique (clear_rectangles st)
  /\ (forall rnd k count, markers_unique (fst (start_quads rnd k count st)))
  /\ (forall rnd k, markers_unique (fst (_tick rnd k st))).
Proof.
  intros Hst. pose proof Hst as [Hp Hpp].
  split; [| split; [| split; [| split; [| split; [| split]]]]].
  - intros row_letter col_num. unfold markers_unique.
    rewrite add_pin_pins. split.
    + apply insert_if_absent_nodup. exact Hp.
    + unfold add_pin.
      destruct (key_in (upper row_letter, col_num) (pins st)); exact Hpp.
  - apply place_purple_pindrop_unique. exact Hst.
  - intros text. unfold serial_line.
    destruct (handle_line text) as [[row col] |]; [| exact Hst].
    unfold _on_serial_pin, try_pass.
    apply place_purple_pindrop_unique. exact Hst.
  - destruct (stop_quads_fields st) as (_ & _ & _ & _ & _ & _ & Hps & _ & Hpps).
    unfold markers_unique. rewrite Hps, Hpps. split; [exact Hp | constructor].
  - unfold clear_rectangles. destruct (rectangles st); exact Hst.
  - intros rnd k count.
    destruct (start_quads_frame rnd k count st)
      as (_ & _ & _ & Hps & _ & _ & Hpps & _).
    unfold markers_unique. rewrite Hps, Hpps. split; [exact Hp | constructor].
  - intros rnd k. destruct (quadcopters st) as [| q0 qs0] eqn:Hq.
    + unfold _tick. rewrite Hq. exact Hst.
    + assert (Hne : quadcopters st <> []) by (rewrite Hq; discriminate).
      rewrite (tick_result rnd k st Hne). exact Hst.
Qed.

(** A canvas with the pin B9, asked for b9 again. *)
Lemma markers_stay_unique_witness :
  markers_unique (add_pin "b" 9 (add_pin "B" 9 (fresh_canvas 70)))
  /\ pins (add_pin "b" 9 (add_pin "B" 9 (fresh_canvas 70)))
     = [("B"%string, 9)].
Proof.
  assert (H0 : markers_unique (add_pin "B" 9 (fresh_canvas 70))).
  { split; [| constructor]. constructor; [intros [] | constructor]. }
  split; [| reflexivity].
  apply (proj1 (markers_stay_unique (add_pin "B" 9 (fresh_canvas 70)) H0)).
Defined.

End UniqueMarkers.

(** ** Clearing the rectangles *)

Section Clearing.
Local Open Scope Q_scope.

Lemma free_move (q : Quad) :
  move_y [] (move_x [] q)
  = mkQuad (mkPoint (ptx (pos q) + ptx (vel q)) (pty (pos q) + pty (vel q)))
      (vel q) (size q) (battery q).
Proof. reflexivity. Qed.

(** [clear_rectangles] removes every rectangle and touches nothing else but
    the repaint counter; on the cleared canvas nothing blocks or deflects
    an agent: a tick in which no bounds test fires moves a quadcopter by
    exactly its velocity and leaves the velocity as it was. *)
Theorem cleared_canvas_moves_freely (rnd : nat -> Q) (k : nat)
  (st : GridCanvas) (q : Quad) :
  clamp_fires (play_area st)
    (before_bounds_quad (rectangles (clear_rectangles st)) rnd k q) = false ->
  rectangles (clear_rectangles st) = []
  /\ (pins (clear_rectangles st), purple_pins (clear_rectangles st),
      quadcopters (clear_rectangles st), purple_drone (clear_rectangles st),
      visited (clear_rectangles st))
     = (pins st, purple_pins st, quadcopters st, purple_drone st, visited st)
  /\ pos (fst (tick_quad (play_area st) (rectangles (clear_rectangles st))
                 rnd k q))
     = mkPoint (ptx (pos q) + ptx (vel q)) (pty (pos q) + pty (vel q))
  /\ vel (fst (tick_quad (play_area st) (rectangles (clear_rectangles st))
                 rnd k q))
     = vel q.
Proof.
  assert (Hrs : rectangles (clear_rectangles st) = []).
  { unfold clear_rectangles. destruct (rectangles st) eqn:E; [exact E |].
    reflexivity. }
  rewrite Hrs. intros Hclamp.
  split; [reflexivity |]. split.
  - unfold clear_rectangles. destruct (rectangles st); reflexivity.
  - unfold before_bounds_quad in Hclamp.
    rewrite (recover_idle [] rnd k _ eq_refl) in Hclamp. cbn [fst] in Hclamp.
    rewrite (tick_quad_idle (play_area st) [] rnd k q eq_refl Hclamp).
    rewrite free_move. split; reflexivity.
Qed.

Lemma cleared_canvas_moves_freely_witness :
  let st := set_rectangles (fresh_canvas 70) [mkRect 0 0 400 300] in
  let q := quad_at 200 150 1 1 63 in
  rectangles (clear_rectangles st) = []
  /\ pos (fst (tick_quad (play_area st) (rectangles (clear_rectangles st))
                 (fun _ => 0.5) 0 q))
     = mkPoint (200 + 1) (150 + 1).
Proof.
  intros st q.
  destruct (cleared_canvas_moves_freely (fun _ => 0.5) 0 st q eq_refl)
    as (Hrs & _ & Hpos & _).
  split; [exact Hrs | exact Hpos].
Defined.

End Clearing.

(** ** Drawing rectangles *)

Section Drawing.
Local Open Scope Q_scope.

Lemma pymin_min (x y : Q) : pymin x y == Qmin x y.
Proof.
  unfold pymin. destruct (Qltb y x) eqn:E; test_facts.
  - symmetry. apply Q.min_r. lra.
  - symmetry. apply Q.min_l. exact E.
Qed.

(** While the button is held in drawing mode, moves keep the start of the
    drag and the finished rectangles. *)
Lemma mouse_moves_keep (ps : list QPointF) (t : DrawTool) (c : GridCanvas)
  (start : QPointF) :
  drawing_mode t = true -> _drag_start t = Some start ->
  drawing_mode (fst (mouse_moves ps (t, c))) = true
  /\ _drag_start (fst (mouse_moves ps (t, c))) = Some start
  /\ rectangles (snd (mouse_moves ps (t, c))) = rectangles c.
Proof.
  unfold mouse_moves. revert t c.
  induction ps as [| p ps IH]; intros t c Hmode Hstart; cbn [fold_left].
  - auto.
  - assert (Hmove : exists r,
               mouseMoveEvent p (t, c)
               = (mkTool true (Some start) (Some r), update c)).
    { unfold mouseMoveEvent. rewrite Hmode, Hstart. eexists. reflexivity. }
    destruct Hmove as [r ->].
    destruct (IH (mkTool true (Some start) (Some r)) (update c)
                eq_refl eq_refl) as (H1 & H2 & H3).
    split; [exact H1 |]. split; [exact H2 |]. exact H3.
Qed.

(** Pressing the left button at [p0] in drawing mode, moving through any
    points and last to [p1], and releasing adds exactly one rectangle,
    whichever way the drag went: its left and top edges are the smaller of
    the two X and of the two Y coordinates, its width and height are
    [abs(x1 - x0)] and [abs(y1 - y0)], never negative, and the tool is idle
    again. *)
Theorem drag_draws_spanned_box (t : DrawTool) (c : GridCanvas)
  (p0 p1 : QPointF) (through : list QPointF) :
  drawing_mode t = true ->
  exists r,
    rectangles
      (snd (mouseReleaseEvent LeftButton
              (mouse_moves (through ++ [p1])
                 (mousePressEvent LeftButton p0 (t, c)))))
    = rectangles c ++ [r]
    /\ left_edge r == Qmin (ptx p0) (ptx p1)
    /\ top_edge r == Qmin (pty p0) (pty p1)
    /\ rw r = Qabs (ptx p1 - ptx p0)
    /\ rh r = Qabs (pty p1 - pty p0)
    /\ 0 <= rw r /\ 0 <= rh r
    /\ fst (mouseReleaseEvent LeftButton
              (mouse_moves (through ++ [p1])
                 (mousePressEvent LeftButton p0 (t, c))))
       = mkTool true None None.
Proof.
  intros Hmode.
  unfold mousePressEvent. rewrite Hmode. cbn [andb is_left].
  unfold mouse_moves. rewrite fold_left_app. cbn [fold_left].
  fold (mouse_moves through
          (mkTool true (Some p0) (Some (mkRect (ptx p0) (pty p0) 0 0)),
           update c)).
  destruct (mouse_moves_keep through
              (mkTool true (Some p0) (Some (mkRect (ptx p0) (pty p0) 0 0)))
              (update c) p0 eq_refl eq_refl) as (Hm & Hs & Hr).
  destruct (mouse_moves through _) as [t1 c1]. cbn [fst snd] in Hm, Hs, Hr.
  unfold mouseMoveEvent. rewrite Hm, Hs.
  unfold mouseReleaseEvent. cbn [drawing_mode _current_rect andb is_left].
  eexists. split; [cbn [snd rectangles update set_rectangles];
                   rewrite Hr; reflexivity |].
  unfold left_edge, top_edge, span_lo.
  cbn [rx ry rw rh fst].
  assert (Hw : Qltb (Qabs (ptx p1 - ptx p0)) 0 = false)
    by (apply Qltb_false, Qabs_nonneg).
  assert (Hh : Qltb (Qabs (pty p1 - pty p0)) 0 = false)
    by (apply Qltb_false, Qabs_nonneg).
  rewrite Hw, Hh.
  split; [apply pymin_min |]. split; [apply pymin_min |].
  split; [reflexivity |]. split; [reflexivity |].
  split; [apply Qabs_nonneg |]. split; [apply Qabs_nonneg | reflexivity].
Qed.

Lemma bbox_intersects_snoc (rects : list QRectF) (r bbox : QRectF) :
  _bbox_intersects_rects (rects ++ [r]) bbox
  = _bbox_intersects_rects rects bbox || intersects bbox r.
Proof.
  induction rects as [| r0 rects IH]; simpl.
  - destruct (intersects bbox r); reflexivity.
  - destruct (intersects bbox r0); [reflexivity | exact IH].
Qed.

Lemma null_rect_intersects_nothing (x y : Q) (bbox : QRectF) :
  intersects bbox (mkRect x y 0 0) = false.
Proof.
  apply not_true_is_false. intros H. apply intersects_iff in H.
  destruct H as [Hx _]. apply ranges_overlap_iff in Hx.
  destruct Hx as (_ & Hnull & _).
  unfold left_edge, right_edge, span_lo, span_hi in Hnull. simpl in Hnull.
  lra.
Qed.

(** A click in drawing mode (press and release with no move between) adds
    a rectangle of width and height 0 where the pointer is; such a
    rectangle never blocks an agent: every intersection test answers as it
    did before the click. *)
Theorem click_adds_harmless_rectangle (t : DrawTool) (c : GridCanvas)
  (p : QPointF) :
  drawing_mode t = true ->
  rectangles
    (snd (mouseReleaseEvent LeftButton (mousePressEvent LeftButton p (t, c))))
  = rectangles c ++ [mkRect (ptx p) (pty p) 0 0]
  /\ forall bbox,
       _bbox_intersects_rects
         (rectangles
            (snd (mouseReleaseEvent LeftButton
                    (mousePressEvent LeftButton p (t, c)))))
         bbox
       = _bbox_intersects_rects (rectangles c) bbox.
Proof.
  intros Hmode.
  assert (Hrs : rectangles
                  (snd (mouseReleaseEvent LeftButton
                          (mousePressEvent LeftButton p (t, c))))
                = rectangles c ++ [mkRect (ptx p) (pty p) 0 0]).
  { unfold mousePressEvent. rewrite Hmode. cbn [andb is_left].
    unfold mouseReleaseEvent. cbn [drawing_mode _current_rect andb is_left].
    reflexivity. }
  split; [exact Hrs |].
  intros bbox. rewrite Hrs, bbox_intersects_snoc.
  rewrite null_rect_intersects_nothing. apply orb_false_r.
Qed.

End Drawing.

(** A drag from (300, 200) up and to the left, to (100, 50). *)
Lemma drag_draws_spanned_box_witness :
  exists r,
    rectangles
      (snd (mouseReleaseEvent LeftButton
              (mouse_moves ([mkPoint 250 180] ++ [mkPoint 100 50])
                 (mousePressEvent LeftButton (mkPoint 300 200)
                    (mkTool true None None, fresh_canvas 70)))))
    = rectangles (fresh_canvas 70) ++ [r]
    /\ (left_edge r == Qmin 300 100)%Q.
Proof.
  destruct (drag_draws_spanned_box (mkTool true None None) (fresh_canvas 70)
              (mkPoint 300 200) (mkPoint 100 50) [mkPoint 250 180] eq_refl)
    as (r & Hrs & Hleft & _).
  exists r. split; [exact Hrs | exact Hleft].
Defined.

Lemma click_adds_harmless_rectangle_witness :
  rectangles
    (snd (mouseReleaseEvent LeftButton
            (mousePressEvent LeftButton (mkPoint 120 90)
               (mkTool true None None, fresh_canvas 70))))
  = [mkRect 120 90 0 0].
Proof.
  apply (proj1 (click_adds_harmless_rectangle (mkTool true None None)
                  (fresh_canvas 70) (mkPoint 120 90) eq_refl)).
Defined.

(** ** What is painted where *)

Section Painting.

Lemma upper_index_to_letters (n : Z) :
  upper (_index_to_letters n) = _index_to_letters n.
Proof.
  unfold upper. rewrite index_to_letters_chars.
  rewrite (upper_char_fixes_upper _ (letters_upper n)). reflexivity.
Qed.

Lemma letters_to_index_of_letters (n : Z) :
  0 <= n -> _letters_to_index (_index_to_letters n) = Returned n.
Proof.
  intros Hn. rewrite letters_to_index_value, upper_index_to_letters.
  rewrite index_to_letters_chars, (filter_all_upper _ (letters_upper n)).
  rewrite label_value_letters by exact Hn. reflexivity.
Qed.

(** The cell of [int(x // cs)] contains [x]. *)
Lemma floordiv_cell (x : Q) (cs c : Z) :
  0 < cs -> floordiv x cs = Returned c ->
  (inject_Z (c * cs) <= x < inject_Z (c * cs) + inject_Z cs)%Q.
Proof.
  intros Hcs. unfold floordiv.
  destruct (cs =? 0) eqn:E; [discriminate |].
  intros H.
  assert (Hc : c = Qfloor (x / inject_Z cs)) by congruence.
  clear H. subst c.
  assert (Hq : (0 < inject_Z cs)%Q) by (rewrite Zlt_Qlt in Hcs; exact Hcs).
  assert (Hx : (x / inject_Z cs * inject_Z cs == x)%Q).
  { field. apply Qnot_eq_sym, Qlt_not_eq. exact Hq. }
  pose proof (Qfloor_le (x / inject_Z cs)) as Hlo.
  pose proof (Qlt_floor (x / inject_Z cs)) as Hhi.
  rewrite inject_Z_plus in Hhi. change (inject_Z 1) with 1%Q in Hhi.
  apply (Qmult_le_compat_r _ _ (inject_Z cs)) in Hlo; [| lra].
  apply (Qmult_lt_compat_r _ _ (inject_Z cs)) in Hhi; [| exact Hq].
  rewrite Hx in Hlo, Hhi. rewrite inject_Z_mult.
  set (m := (inject_Z (Qfloor (x / inject_Z cs)) * inject_Z cs)%Q) in *.
  assert (Hm : ((inject_Z (Qfloor (x / inject_Z cs)) + 1) * inject_Z cs
                == m + inject_Z cs)%Q) by (unfold m; ring).
  rewrite Hm in Hhi. split; lra.
Qed.

(** A purple pin is painted where it was dropped: for a positive cell
    size, the key that [place_purple_pindrop] stores for the drone converts
    back, in [paintEvent], to the top-left corner of the very cell that
    contains the drone. *)
Theorem purple_pin_painted_under_drone (st : GridCanvas) (pd : Quad)
  (key : PinKey) :
  0 < cell_size st ->
  purple_drone st = Some pd ->
  drone_key st = Some key ->
  In key (purple_pins (place_purple_pindrop st))
  /\ exists cell_x cell_y,
       pin_cell (cell_size st) key = Returned (cell_x, cell_y)
       /\ (inject_Z cell_x <= ptx (pos pd)
           < inject_Z cell_x + inject_Z (cell_size st))%Q
       /\ (inject_Z cell_y <= pty (pos pd)
           < inject_Z cell_y + inject_Z (cell_size st))%Q.
Proof.
  intros Hcs Hpd Hkey. split.
  - rewrite (place_purple_pindrop_pins st key Hkey).
    destruct (key_in key (purple_pins st)) eqn:E.
    + unfold key_in in E. apply existsb_exists in E.
      destruct E as (k' & Hin & Heq).
      destruct key as [r c], k' as [r' c']. unfold key_eqb in Heq.
      simpl in Heq. apply andb_true_iff in Heq. destruct Heq as [Hr Hc].
      apply String.eqb_eq in Hr. apply Z.eqb_eq in Hc. subst. exact Hin.
    + apply in_or_app. right. left. reflexivity.
  - unfold drone_key, cell_of in Hkey. rewrite Hpd in Hkey.
    destruct (floordiv (ptx (pos pd)) (cell_size st)) as [col_idx |] eqn:Ex;
      [| discriminate].
    destruct (floordiv (pty (pos pd)) (cell_size st)) as [row_idx |] eqn:Ey;
      [| discriminate].
    simpl in Hkey.
    destruct ((row_idx <? 1) || (col_idx <? 1)) eqn:Eh; [discriminate |].
    injection Hkey as <-. test_facts.
    exists (col_idx * cell_size st), (row_idx * cell_size st).
    split; [| split].
    + unfold pin_cell. cbn [fst snd].
      rewrite upper_index_to_letters, letters_to_index_of_letters by lia.
      reflexivity.
    + apply floordiv_cell; assumption.
    + apply floordiv_cell; assumption.
Qed.

(** With a positive step, a grid loop ends. *)
Lemma grid_lines_end (cs bound : Z) (n : nat) (x : Z) :
  0 < cs -> bound - x < Z.of_nat n ->
  exists ls, grid_lines (S n) cs bound x = Some ls.
Proof.
  intros Hcs. revert x. induction n as [| n IH]; intros x Hx.
  - cbn [grid_lines]. destruct (x <=? bound) eqn:E; test_facts; [lia |].
    eexists. reflexivity.
  - cbn [grid_lines]. destruct (x <=? bound) eqn:E; [| eexists; reflexivity].
    destruct (IH (x + cs)) as [ls Hls]; [lia |].
    cbn [grid_lines] in Hls. rewrite Hls. eexists. reflexivity.
Qed.

(** With a step that is not positive, a grid loop that starts goes on for
    ever: no amount of fuel is enough. *)
Lemma grid_lines_run_on (cs bound : Z) (fuel : nat) (x : Z) :
  cs <= 0 -> x <= bound -> grid_lines fuel cs bound x = None.
Proof.
  intros Hcs. revert x. induction fuel as [| fuel IH]; intros x Hx;
    [reflexivity |].
  cbn [grid_lines]. destruct (x <=? bound) eqn:E; test_facts; [| lia].
  rewrite IH by lia. reflexivity.
Qed.

(** On a widget, whose width is never negative, a cell size that is not
    positive keeps [paintEvent] in its first loop: the labels are never
    reached. *)
Lemma row_labels_unreached (fuel : nat) (cs w h : Z) :
  cs <= 0 -> 0 <= w -> row_labels fuel cs w h = None.
Proof.
  intros Hcs Hw. unfold row_labels.
  rewrite (grid_lines_run_on cs w fuel 0 Hcs Hw). reflexivity.
Qed.

(** With a positive cell size, painting gets to the labels of the left
    header column, and they are the same however long the grid loops took:
    as many as there are content rows, pairwise distinct, and the label
    painted in row [j] reads back as [j]. *)
Theorem row_labels_readable (cs w h : Z) :
  0 < cs ->
  exists labels,
    (exists fuel, row_labels fuel cs w h = Some (Returned labels))
    /\ (forall fuel r, row_labels fuel cs w h = Some r -> r = Returned labels)
    /\ List.length labels = (Z.to_nat (Z.max 1 (h / cs)) - 1)%nat
    /\ NoDup labels
    /\ forall j,
         (j < List.length labels)%nat ->
         _letters_to_index (nth j labels EmptyString)
         = Returned (Z.of_nat (S j)).
Proof.
  intros Hcs.
  set (n := (Z.to_nat (Z.max 1 (h / cs)) - 1)%nat).
  exists (map (fun j => _index_to_letters (Z.of_nat j)) (seq 1 n)).
  assert (Hne : (cs =? 0) = false) by (apply Z.eqb_neq; lia).
  split; [| split; [| split; [| split]]].
  - set (m := Z.to_nat (Z.max w h + 1)).
    exists (S m). unfold row_labels.
    destruct (grid_lines_end cs w m 0 Hcs) as [lw ->]; [lia |].
    destruct (grid_lines_end cs h m 0 Hcs) as [lh ->]; [lia |].
    rewrite Hne. reflexivity.
  - intros fuel r. unfold row_labels.
    destruct (grid_lines fuel cs w 0); [| discriminate].
    destruct (grid_lines fuel cs h 0); [| discriminate].
    rewrite Hne. intros H. injection H as <-. reflexivity.
  - rewrite length_map, length_seq. reflexivity.
  - apply NoDup_map_NoDup_ForallPairs; [| apply seq_NoDup].
    intros x y Hx Hy Heq. apply in_seq in Hx. apply in_seq in Hy.
    apply (f_equal _letters_to_index) in Heq.
    rewrite !letters_to_index_of_letters in Heq by lia.
    injection Heq as Heq. lia.
  - intros j Hj. rewrite length_map, length_seq in Hj.
    change EmptyString with ((fun j => _index_to_letters (Z.of_nat j)) 0%nat).
    rewrite map_nth, seq_nth by exact Hj.
    rewrite letters_to_index_of_letters by lia. reflexivity.
Qed.

End Painting.

(** The drone over cell C4 of the default canvas. *)
Lemma purple_pin_painted_under_drone_witness :
  let st :=
    set_purple_drone (fresh_canvas 70) (Some (quad_at 300 230 1 1 63)) in
  In ("C"%string, 4) (purple_pins (place_purple_pindrop st))
  /\ exists cell_x cell_y,
       pin_cell 70 ("C"%string, 4) = Returned (cell_x, cell_y)
       /\ (inject_Z cell_x <= 300 < inject_Z cell_x + inject_Z 70)%Q
       /\ (inject_Z cell_y <= 230 < inject_Z cell_y + inject_Z 70)%Q.
Proof.
  intros st.
  apply (purple_pin_painted_under_drone st (quad_at 300 230 1 1 63)
           ("C"%string, 4)); reflexivity.
Defined.

(** The default canvas: 400 by 300 with cells of 70. *)
Lemma row_labels_readable_witness :
  0 < 70
  /\ exists labels,
       (exists fuel, row_labels fuel 70 400 300 = Some (Returned labels))
       /\ (forall fuel r,
              row_labels fuel 70 400 300 = Some r -> r = Returned labels)
       /\ List.length labels = (Z.to_nat (Z.max 1 (300 / 70)) - 1)%nat
       /\ NoDup labels
       /\ forall j,
            (j < List.length labels)%nat ->
            _letters_to_index (nth j labels EmptyString)
            = Returned (Z.of_nat (S j)).
Proof.
  split; [reflexivity | apply (row_labels_readable 70 400 300); reflexivity].
Defined.

(** ** Lines from the serial port *)

Section SerialLines.

Lemma letter_class (c : ascii) :
  is_letter c = true ->
  isspace c = false /\ is_digit c = false /\ Ascii.eqb c "," = false.
Proof.
  unfold is_letter, is_upper_letter, is_lower_letter, isspace, is_digit.
  change (ord "A") with 65. change (ord "Z") with 90.
  change (ord "a") with 97. change (ord "z") with 122.
  change (ord "0") with 48. change (ord "9") with 57.
  intros H. apply orb_true_iff in H.
  assert (Hc : 65 <= ord c) by (destruct H; test_facts; lia).
  repeat split.
  - repeat (apply orb_false_iff; split);
      first [ apply Z.eqb_neq; lia
            | apply andb_false_iff; right; apply Z.leb_gt; lia ].
  - apply andb_false_iff. right. apply Z.leb_gt. lia.
  - apply Ascii.eqb_neq. intros ->. vm_compute in Hc. apply Hc. reflexivity.
Qed.

Lemma digit_class (c : ascii) :
  is_digit c = true ->
  isspace c = false /\ is_letter c = false /\ Ascii.eqb c "," = false.
Proof.
  unfold is_letter, is_upper_letter, is_lower_letter, isspace, is_digit.
  change (ord "A") with 65. change (ord "Z") with 90.
  change (ord "a") with 97. change (ord "z") with 122.
  change (ord "0") with 48. change (ord "9") with 57.
  intros H. test_facts. repeat split.
  - repeat (apply orb_false_iff; split);
      first [ apply Z.eqb_neq; lia
            | apply andb_false_iff; left; apply Z.leb_gt; lia
            | apply andb_false_iff; right; apply Z.leb_gt; lia ].
  - apply orb_false_iff. split; apply andb_false_iff; left; apply Z.leb_gt; lia.
  - apply Ascii.eqb_neq. intros ->. vm_compute in H. apply H. reflexivity.
Qed.

Lemma space_class (c : ascii) :
  isspace c = true ->
  is_letter c = false /\ is_digit c = false /\ Ascii.eqb c "," = false.
Proof.
  intros H. repeat split.
  - destruct (is_letter c) eqn:E; [| reflexivity].
    destruct (letter_class c E) as (Hs & _). congruence.
  - destruct (is_digit c) eqn:E; [| reflexivity].
    destruct (digit_class c E) as (Hs & _). congruence.
  - apply Ascii.eqb_neq. intros ->. vm_compute in H. discriminate H.
Qed.

Lemma span_spec (p : ascii -> bool) (l : list ascii) :
  l = fst (span p l) ++ snd (span p l)
  /\ forallb p (fst (span p l)) = true
  /\ hd_fails p (snd (span p l)).
Proof.
  induction l as [| c l IH]; simpl; [auto |].
  destruct (p c) eqn:E.
  - destruct (span p l) as [pre rest]. simpl in *.
    destruct IH as (-> & Hpre & Hrest). rewrite E. auto.
  - simpl. auto.
Qed.

Lemma span_app (p : ascii -> bool) (pre rest : list ascii) :
  forallb p pre = true -> hd_fails p rest -> span p (pre ++ rest) = (pre, rest).
Proof.
  intros Hpre Hrest. induction pre as [| c pre IH]; simpl.
  - destruct rest as [| c rest]; [reflexivity |].
    simpl in Hrest. simpl. rewrite Hrest. reflexivity.
  - simpl in Hpre. apply andb_true_iff in Hpre. destruct Hpre as [Hc Hpre].
    rewrite Hc, (IH Hpre). reflexivity.
Qed.

Lemma lstrip_spec (l : list ascii) :
  exists ws,
    l = ws ++ lstrip l /\ forallb isspace ws = true
    /\ hd_fails isspace (lstrip l).
Proof.
  induction l as [| c l IH]; simpl.
  - exists []. auto.
  - destruct (isspace c) eqn:E.
    + destruct IH as (ws & Hl & Hws & Hhd). exists (c :: ws).
      simpl. rewrite E, <- Hl. auto.
    + exists []. simpl. auto.
Qed.

Lemma lstrip_spaces (ws rest : list ascii) :
  forallb isspace ws = true -> lstrip (ws ++ rest) = lstrip rest.
Proof.
  induction ws as [| c ws IH]; simpl; [reflexivity |].
  intros H. apply andb_true_iff in H. destruct H as [Hc Hws].
  rewrite Hc. apply IH. exact Hws.
Qed.

Lemma lstrip_id (l : list ascii) : hd_fails isspace l -> lstrip l = l.
Proof. destruct l as [| c l]; simpl; [reflexivity |]. intros ->. reflexivity. Qed.

Lemma hd_fails_class (p q : ascii -> bool) (l rest : list ascii) :
  (forall c, q c = true -> p c = false) ->
  forallb q l = true -> l <> [] -> hd_fails p (l ++ rest).
Proof.
  intros Hpq Hl Hne. destruct l as [| c l]; [congruence |].
  simpl in *. apply andb_true_iff in Hl. destruct Hl as [Hc _].
  apply Hpq. exact Hc.
Qed.

Lemma hd_fails_spaces (p : ascii -> bool) (ws rest : list ascii) :
  (forall c, isspace c = true -> p c = false) ->
  forallb isspace ws = true -> hd_fails p rest -> hd_fails p (ws ++ rest).
Proof.
  intros Hp Hws Hrest. destruct ws as [| c ws]; [exact Hrest |].
  simpl in *. apply andb_true_iff in Hws. destruct Hws as [Hc _].
  apply Hp. exact Hc.
Qed.

Lemma match_line_sound (line row digits : list ascii) :
  match_line line = Some (row, digits) -> pattern_matches line row digits.
Proof.
  unfold match_line, pattern_matches.
destruct (lstrip_spec line) as (ws1 & Hline & Hws1 & _).
destruct (span_spec is_letter (lstrip line)) as (H1 & Hrow & _).
destruct (span is_letter (lstrip line)) as [row0 rest1].
cbn [fst snd] in H1, Hrow.
destruct row0 as [| r0 row0]; [discriminate |].
rewrite H1 in Hline. clear H1.
destruct (lstrip_spec rest1) as (ws2 & Hrest1 & Hws2 & _).
remember (lstrip rest1) as rest2 eqn:Erest2. clear Erest2.
assert (Hcomma : exists comma rest3,
           rest2 = comma ++ rest3
           /\ (comma = [] \/ comma = [","%char])
           /\ match rest2 with
              | c :: r => if Ascii.eqb c "," then r else rest2
              | [] => rest2
              end = rest3).
{ destruct rest2 as [| c r]; [exists [], []; auto |].
  destruct (Ascii.eqb c ",") eqn:Ec.
  - apply Ascii.eqb_eq in Ec. subst c. exists [","%char], r. auto.
  - exists [], (c :: r). auto. }
destruct Hcomma as (comma & rest3 & Hrest2 & Hcomma & ->).
destruct (lstrip_spec rest3) as (ws3 & Hrest3 & Hws3 & _).
destruct (span_spec is_digit (lstrip rest3)) as (H4 & Hds & _).
destruct (span is_digit (lstrip rest3)) as [ds rest5].
cbn [fst snd] in H4, Hds. rewrite H4 in Hrest3. clear H4.
destruct ds as [| d0 ds]; [discriminate |].
destruct (lstrip_spec rest5) as (ws4 & Hrest5 & Hws4 & _).
destruct (lstrip rest5); [| discriminate].
rewrite app_nil_r in Hrest5.
intros H. injection H as <- <-.
exists ws1, ws2, comma, ws3, ws4.
split.
+ subst rest5 rest3 rest2 rest1. exact Hline.
+ repeat split; try assumption; discriminate.
Qed.

Lemma match_line_complete (line row digits : list ascii) :
  pattern_matches line row digits -> match_line line = Some (row, digits).
Proof.
  intros (ws1 & ws2 & comma & ws3 & ws4 & -> & Hws1 & Hne & Hrow & Hws2
        & Hcomma & Hws3 & Hdne & Hds & Hws4).
assert (Hdigits_first : forall p,
           (forall c, is_digit c = true -> p c = false) ->
           hd_fails p (digits ++ ws4)).
{ intros p Hp. apply (hd_fails_class p is_digit); assumption. }
assert (Htail_letter : hd_fails is_letter (ws2 ++ comma ++ ws3 ++ digits ++ ws4)).
{ apply (hd_fails_spaces is_letter ws2);
    [apply space_class | exact Hws2 |].
  destruct Hcomma as [-> | ->]; cbn [app].
  - apply (hd_fails_spaces is_letter ws3);
      [apply space_class | exact Hws3 |].
    apply Hdigits_first. apply digit_class.
  - reflexivity. }
unfold match_line.
rewrite (lstrip_spaces ws1 _ Hws1).
rewrite lstrip_id
  by (apply (hd_fails_class isspace is_letter);
      [apply letter_class | exact Hrow | exact Hne]).
rewrite (span_app is_letter row _ Hrow Htail_letter).
destruct row as [| r0 row]; [congruence |].
rewrite (lstrip_spaces ws2 _ Hws2).
assert (Hrest :
         match lstrip (comma ++ ws3 ++ digits ++ ws4) with
         | c :: r =>
             if Ascii.eqb c ","
             then r else lstrip (comma ++ ws3 ++ digits ++ ws4)
         | [] => lstrip (comma ++ ws3 ++ digits ++ ws4)
         end = ws3 ++ digits ++ ws4
         \/ match lstrip (comma ++ ws3 ++ digits ++ ws4) with
            | c :: r =>
                if Ascii.eqb c ","
                then r else lstrip (comma ++ ws3 ++ digits ++ ws4)
            | [] => lstrip (comma ++ ws3 ++ digits ++ ws4)
            end = digits ++ ws4).
{ destruct Hcomma as [-> | ->].
  - right. cbn [app]. rewrite (lstrip_spaces ws3 _ Hws3).
    rewrite lstrip_id by (apply Hdigits_first; apply digit_class).
    destruct digits as [| d0 ds]; [congruence |].
    cbn [app]. simpl in Hds. apply andb_true_iff in Hds.
    destruct Hds as [Hd0 _]. destruct (digit_class d0 Hd0) as (_ & _ & ->).
    reflexivity.
  - left. reflexivity. }
assert (Hfinal : forall rest,
           rest = ws3 ++ digits ++ ws4 \/ rest = digits ++ ws4 ->
           lstrip rest = digits ++ ws4).
{ intros rest [-> | ->].
  - rewrite (lstrip_spaces ws3 _ Hws3).
    apply lstrip_id. apply Hdigits_first. apply digit_class.
  - apply lstrip_id. apply Hdigits_first. apply digit_class. }
rewrite (Hfinal _ Hrest).
assert (Hws4d : hd_fails is_digit ws4).
{ destruct ws4 as [| c ws4]; [exact I |]. simpl in Hws4 |- *.
  apply andb_true_iff in Hws4. destruct Hws4 as [Hc _].
  apply space_class. exact Hc. }
rewrite (span_app is_digit digits ws4 Hds Hws4d).
destruct digits as [| d0 ds]; [congruence |].
replace (lstrip ws4) with (@nil ascii); [reflexivity |].
rewrite <- (app_nil_r ws4), (lstrip_spaces ws4 [] Hws4). reflexivity.
Qed.

(** [match_line] decides the pattern of the receiver and returns its two
    groups: it answers [Some (row, digits)] exactly for the lines made of
    optional blanks, the letters [row], optional blanks, an optional comma,
    optional blanks, the digits [digits] and optional blanks; the groups of
    a matching line are therefore unique. *)
Theorem match_line_pattern (line row digits : list ascii) :
  (match_line line = Some (row, digits) <-> pattern_matches line row digits)
  /\ (forall row' digits',
         pattern_matches line row digits ->
         pattern_matches line row' digits' ->
         row' = row /\ digits' = digits).
Proof.
  split.
  - split; [apply match_line_sound | apply match_line_complete].
  - intros row' digits' H H'.
    apply match_line_complete in H. apply match_line_complete in H'.
    rewrite H in H'. injection H' as <- <-. split; reflexivity.
Qed.





Lemma c_int_small (z : Z) : - 2 ^ 31 <= z < 2 ^ 31 -> c_int z = z.
Proof.
  intros Hz. unfold c_int. rewrite Z.mod_small; [lia |].
  change (2 ^ 32) with (2 ^ 31 + 2 ^ 31). lia.
Qed.

Lemma digits_value_nonneg (ds : list ascii) :
  forallb is_digit ds = true -> 0 <= digits_value ds.
Proof.
  unfold digits_value.
  assert (Hgen : forall acc, 0 <= acc -> forallb is_digit ds = true ->
                 0 <= fold_left (fun v d => v * 10 + (ord d - ord "0")) ds acc).
  { induction ds as [| d ds IH]; intros acc Hacc; simpl; [auto |].
    intros H. apply andb_true_iff in H. destruct H as [Hd Hds].
    apply IH; [| exact Hds]. unfold is_digit in Hd.
    change (ord "0") with 48 in *. test_facts. lia. }
  apply Hgen. lia.
Qed.

(** What [handle_line] delivers, it takes from a match of the pattern
    whose digits [int] converts. *)
Lemma handle_line_some (text : string) (row : string) (col : Z) :
  handle_line text = Some (row, col) ->
  exists letters digits,
    pattern_matches (list_ascii_of_string (strip text)) letters digits
    /\ row = upper (string_of_list_ascii letters)
    /\ col = c_int (digits_value digits)
    /\ Z.of_nat (List.length digits) <= int_max_str_digits.
Proof.
  unfold handle_line.
  destruct (list_ascii_of_string (strip text)) as [| c l] eqn:El;
    [discriminate |].
  destruct (match_line (c :: l)) as [[letters digits] |] eqn:Em;
    [| discriminate].
  unfold int_of_digits.
  destruct (int_max_str_digits <? Z.of_nat (List.length digits)) eqn:Elen;
    [discriminate |].
  intros H. injection H as <- <-.
  exists letters, digits. test_facts.
  split; [apply match_line_sound; exact Em |].
  split; [reflexivity |]. split; [reflexivity | lia].
Qed.

(** A line whose number has more digits than [int] converts is dropped,
    and a column of 2^31 arrives as -2^31. *)
Lemma handle_line_limits :
  handle_line
    (string_of_list_ascii
       (list_ascii_of_string "A" ++ repeat "1"%char 4301)) = None
  /\ handle_line "A 2147483648" = Some ("A"%string, -2147483648).
Proof. split; vm_compute; reflexivity. Qed.


Lemma lstrip_incl (l : list ascii) (c : ascii) : In c (lstrip l) -> In c l.
Proof.
  induction l as [| c0 l IH]; simpl; [auto |].
  destruct (isspace c0); [intros H; right; apply IH; exact H | auto].
Qed.

Lemma strip_incl (text : string) (c : ascii) :
  In c (list_ascii_of_string (strip text)) ->
  In c (list_ascii_of_string text).
Proof.
  unfold strip. rewrite list_ascii_of_string_of_list_ascii.
  intros H. apply in_rev in H. apply lstrip_incl in H.
  apply in_rev in H. apply lstrip_incl in H. exact H.
Qed.

(** A line with no digit in it, or with no letter in it, is dropped: the
    reader emits nothing and the canvas stays as it is. *)
Theorem line_without_digit_or_letter_dropped (text : string) :
  forallb (fun c => negb (is_digit c)) (list_ascii_of_string text) = true
  \/ forallb (fun c => negb (is_letter c)) (list_ascii_of_string text) = true ->
  handle_line text = None
  /\ forall canvas, serial_line text canvas = canvas.
Proof.
  intros Hnone.
  assert (Hdrop : handle_line text = None).
  { destruct (handle_line text) as [[row col] |] eqn:E; [| reflexivity].
    exfalso.
    destruct (handle_line_some text row col E)
      as (letters & digits & Hm & _).
    destruct Hm as (ws1 & ws2 & comma & ws3 & ws4 & Hline & _ & Hne & Hrow
                    & _ & _ & _ & Hdne & Hds & _).
    destruct Hnone as [Hno | Hno].
    - destruct digits as [| d ds]; [congruence |].
      simpl in Hds. apply andb_true_iff in Hds. destruct Hds as [Hd _].
      assert (Hin : In d (list_ascii_of_string text)).
      { apply strip_incl. rewrite Hline.
        do 5 (apply in_or_app; right). apply in_or_app. left.
        left. reflexivity. }
      rewrite forallb_forall in Hno. specialize (Hno d Hin).
      rewrite Hd in Hno. discriminate Hno.
    - destruct letters as [| r rs]; [congruence |].
      simpl in Hrow. apply andb_true_iff in Hrow. destruct Hrow as [Hr _].
      assert (Hin : In r (list_ascii_of_string text)).
      { apply strip_incl. rewrite Hline.
        apply in_or_app. right. apply in_or_app. left. left. reflexivity. }
      rewrite forallb_forall in Hno. specialize (Hno r Hin).
      rewrite Hr in Hno. discriminate Hno. }
  split; [exact Hdrop |].
  intros canvas. unfold serial_line. rewrite Hdrop. reflexivity.
Qed.

Lemma strip_id (l : list ascii) :
  hd_fails isspace l -> hd_fails isspace (rev l) ->
  strip (string_of_list_ascii l) = string_of_list_ascii l.
Proof.
  intros Hhd Hlast. unfold strip.
  rewrite list_ascii_of_string_of_list_ascii.
  rewrite (lstrip_id l Hhd), (lstrip_id (rev l) Hlast), rev_involutive.
  reflexivity.
Qed.

(** The three shapes of the docstring (B,9 and A1 and C 12) and all their
    kin are accepted: letters, then optional blanks, an optional comma and
    optional blanks, then at most 4300 digits that denote a number below
    2^31, give the upper-cased letters and the decimal value of the
    digits. *)
Theorem well_formed_line_accepted (row ws2 comma ws3 digits : list ascii) :
  row <> [] -> forallb is_letter row = true ->
  forallb isspace ws2 = true ->
  comma = [] \/ comma = [","%char] ->
  forallb isspace ws3 = true ->
  digits <> [] -> forallb is_digit digits = true ->
  Z.of_nat (List.length digits) <= 4300 ->
  digits_value digits < 2 ^ 31 ->
  handle_line (string_of_list_ascii (row ++ ws2 ++ comma ++ ws3 ++ digits))
  = Some (upper (string_of_list_ascii row), digits_value digits).
Proof.
  intros Hne Hrow Hws2 Hcomma Hws3 Hdne Hds Hlen Hval.
  assert (Hm : match_line (row ++ ws2 ++ comma ++ ws3 ++ digits)
               = Some (row, digits)).
  { apply match_line_complete. exists [], ws2, comma, ws3, [].
    rewrite app_nil_r.
    split; [reflexivity |]. split; [reflexivity |]. split; [exact Hne |].
    split; [exact Hrow |]. split; [exact Hws2 |]. split; [exact Hcomma |].
    split; [exact Hws3 |]. split; [exact Hdne |]. split; [exact Hds |].
    reflexivity. }
  assert (Hhd : hd_fails isspace (row ++ ws2 ++ comma ++ ws3 ++ digits)).
  { apply (hd_fails_class isspace is_letter);
      [apply letter_class | exact Hrow | exact Hne]. }
  assert (Hlast : hd_fails isspace
                    (rev (row ++ ws2 ++ comma ++ ws3 ++ digits))).
  { rewrite !app_assoc, rev_app_distr.
    apply (hd_fails_class isspace is_digit); [apply digit_class | |].
    - apply forallb_forall. intros c Hc. apply in_rev in Hc.
      rewrite forallb_forall in Hds. apply Hds. exact Hc.
    - intros Hnil. apply Hdne. rewrite <- (rev_involutive digits), Hnil.
      reflexivity. }
  assert (Hint : int_of_digits digits = Returned (digits_value digits)).
  { unfold int_of_digits, int_max_str_digits.
    destruct (4300 <? Z.of_nat (List.length digits)) eqn:E; test_facts;
      [lia | reflexivity]. }
  assert (Hc : c_int (digits_value digits) = digits_value digits).
  { apply c_int_small. pose proof (digits_value_nonneg digits Hds). lia. }
  unfold handle_line. rewrite (strip_id _ Hhd Hlast).
  rewrite list_ascii_of_string_of_list_ascii.
  destruct (row ++ ws2 ++ comma ++ ws3 ++ digits) as [| c l].
  - discriminate Hm.
  - rewrite Hm, Hint, Hc. reflexivity.
Qed.

End SerialLines.

Lemma match_line_pattern_witness :
  pattern_matches (list_ascii_of_string "B,9") ["B"%char] ["9"%char].
Proof.
  apply (proj1 (proj1 (match_line_pattern (list_ascii_of_string "B,9")
                         ["B"%char] ["9"%char]))).
  reflexivity.
Defined.


Lemma line_without_digit_or_letter_dropped_witness :
  handle_line "garbage" = None
  /\ forall canvas, serial_line "garbage" canvas = canvas.
Proof.
  apply (line_without_digit_or_letter_dropped "garbage").
  left. reflexivity.
Defined.

Lemma well_formed_line_accepted_witness :
  handle_line "c 12" = Some ("C"%string, 12).
Proof.
  apply (well_formed_line_accepted ["c"%char] [" "%char] [] []
           ["1"%char; "2"%char]);
    first [reflexivity | discriminate | left; reflexivity
          | vm_compute; intros H; discriminate H].
Defined.
